(** * cnki-collect: the browser console (static/js) as a state machine

    The console is single-threaded JavaScript: every [async] method runs
    synchronously up to its first [await fetch(...)], and the rest of its
    body (the continuation) runs when the reply settles.  Each such method
    [m] is embedded as a pair: [m], the part before the [await], which
    records the request and parks a continuation, and [m_k], the
    continuation, a function of the reply.  An event loop ([step], [run])
    interleaves user actions, timer ticks and settling replies.

    Numbers are [Z] (ids, pages) or [nat] (counts); JS [Set]s are lists in
    insertion order; the object literal used as a counter table is a
    [gmap].  Markup is abstracted to the data it shows; wall-clock
    timestamps are left out. *)

From stdpp Require Import gmap strings list list_numbers sorting pretty.
From Stdlib Require Import ZArith Lia.

Local Open Scope string_scope.
Local Open Scope list_scope.
Local Open Scope Z_scope.
Local Open Scope nat_scope.

(* ===================================================================== *)
(** ** JavaScript values the code relies on *)
(* ===================================================================== *)

Module Js.

(** What an [await fetch(..)] followed by [await response.json()] and the
    test [if (result.success)] can turn into. *)
Inductive outcome (A : Type) : Type :=
| Success (payload : A)          (* result.success is truthy *)
| Failure (error : string)       (* result.success is falsy; result.error *)
| Rejected (message : string).   (* fetch / json() threw; error.message *)
Arguments Success {A} payload.
Arguments Failure {A} error.
Arguments Rejected {A} message.

Definition failed {A} (o : outcome A) : bool :=
  match o with Success _ => false | _ => true end.

(** [Set.prototype.has / add / delete] and [Array.from(set)], with the
    set kept as the list of its members in insertion order. *)
Section SetOps.
Context {A : Type} `{EqDecision A}.

Definition has (s : list A) (x : A) : bool := bool_decide (x ∈ s).

Definition add (s : list A) (x : A) : list A :=
  if has s x then s else s ++ [x].

Definition delete (s : list A) (x : A) : list A :=
  filter (λ y, y ≠ x) s.

(** [new Set(array)] *)
Definition from_array (l : list A) : list A := foldl add [] l.
End SetOps.

(** [Math.ceil(a / b)] on integers, for [b ≠ 0] (the quotient is then a
    finite number).  [Z.div] rounds towards minus infinity. *)
Definition ceil_div (a b : Z) : Z := (- ((- a) / b))%Z.

End Js.
Export Js.

(* ===================================================================== *)
(** ** Records exchanged with the server *)
(* ===================================================================== *)

Record Article := mkArticle {
  article_id : Z;
  article_keyword : string;          (* "" stands for a missing keyword *)
  article_literature_type : string;
  article_status : string;
}.

Record ArticlesPage := mkArticlesPage {   (* reply of /api/articles *)
  r_articles : list Article;
  r_page : Z;
  r_per_page : Z;
  r_total : Z;
}.

Record Task := mkTask {
  task_id : Z;
  task_type : string;
  status : string;
  can_resume : bool;
}.

Record Stat := mkStat { stat_literature_type : string; stat_count : Z }.

Record DownloadTask := mkDownloadTask { dtask_id : Z; dtask_status : string }.

(** The three task-control endpoints, /api/tasks/<id>/<verb>. *)
Inductive verb : Type := Pause | Resume | Stop.

Global Instance verb_eq_dec : EqDecision verb.
Proof. solve_decision. Defined.

Inductive request : Type :=
| GetArticles (page per_page : Z) (search keyword literature_type : string)
| PostArticlesDownload (article_ids : list Z) (max_workers : option Z)
| GetLiteratureStats
| GetTasks
| GetDownloadTasks
| PostTaskControl (taskId : Z) (v : verb).

(* ===================================================================== *)
(** ** The page and the managers' fields *)
(* ===================================================================== *)

(** One [div.log-entry] of [#logContainer]. *)
Record LogEntry := mkLogEntry { className : string; message : string }.

(** One [li.page-item] of [#pagination]. *)
Inductive PageItem : Type :=
| PrevLink (target : Z)
| PageLink (index : Z) (active : bool)
| NextLink (target : Z).

(** One [div.article-card] of [#articlesList]. *)
Record ArticleCard := mkCard { card_id : Z; card_selected : bool }.

(** The four counters written by [updateTaskStats]. *)
Record Counters := mkCounters {
  runningTasksCount : nat;
  pausedTasksCount : nat;
  completedTasksCount : nat;
  failedTasksCount : nat;
}.

(** The elements of the page the modelled methods read or write.
    [logContainer] and [pagination] are optional because the code tests
    for them; the other elements are taken to exist. *)
Record Document := mkDocument {
  logContainer : option (list LogEntry);
  pagination : option (list PageItem);
  articlesList : list ArticleCard;        (* [] is the "no articles" notice *)
  selectionToolbar : bool;                (* display: block / none *)
  selectedCount : nat;                    (* the n of the count label *)
  keywordOptions : list string;           (* options after "all keywords" *)
  keywordValue : string;                  (* #keywordFilter.value *)
  literatureStats : bool;                 (* panel display: block / none *)
  statsContent : list Stat;
  tasksList : list Task;                  (* [] is the "no tasks" notice *)
  counters : Counters;
  downloadTasksList : list DownloadTask;
  maxWorkers : option Z;                  (* parseInt(#maxWorkers.value); None is NaN *)
  downloadTabClicks : nat;                (* #download-tab .click() calls *)
}.

(** [CNKIApp] *)
Record App := mkApp {
  selectedArticles : list Z;
  currentArticles : list Article;
  currentPage : Z;
  totalPages : Z;
  articlesPerPage : Z;
}.

(** [TaskManager]; a timer id is a positive integer, so it is truthy. *)
Record TaskManager := mkTaskManager {
  tasks : list Task;
  refreshInterval : option positive;
  autoRefreshEnabled : bool;
}.

(** Continuations parked at an [await]; [KDownloadSelected] keeps the
    [articleIds] array captured before the request was sent. *)
Inductive cont : Type :=
| KLoadArticles
| KDownloadSelected (articleIds : list Z)
| KDownloadSingle
| KLiteratureStats
| KDownloadTasks
| KLoadTasks
| KTaskControl (v : verb).

Global Instance cont_eq_dec : EqDecision cont.
Proof. solve_decision. Defined.

(** The browser side: requests sent so far (oldest first), continuations
    still waiting, live [setInterval] timers, the console. *)
Record Browser := mkBrowser {
  net : list request;
  inflight : list cont;
  timers : list positive;
  nextTimer : positive;
  console : list string;
}.

Record World := mkWorld {
  app : App;
  taskManager : TaskManager;
  document : Document;
  browser : Browser;
}.

Definition with_app (f : App → App) (w : World) : World :=
  mkWorld (f (app w)) (taskManager w) (document w) (browser w).
Definition with_taskManager (f : TaskManager → TaskManager) (w : World) : World :=
  mkWorld (app w) (f (taskManager w)) (document w) (browser w).
Definition with_document (f : Document → Document) (w : World) : World :=
  mkWorld (app w) (taskManager w) (f (document w)) (browser w).
Definition with_browser (f : Browser → Browser) (w : World) : World :=
  mkWorld (app w) (taskManager w) (document w) (f (browser w)).

(** Field updates of [Document] (assignments to one element). *)
Definition set_pagination (v : option (list PageItem)) (d : Document) : Document :=
  mkDocument (logContainer d) v (articlesList d) (selectionToolbar d)
    (selectedCount d) (keywordOptions d) (keywordValue d) (literatureStats d)
    (statsContent d) (tasksList d) (counters d) (downloadTasksList d)
    (maxWorkers d) (downloadTabClicks d).
Definition set_articlesList (v : list ArticleCard) (d : Document) : Document :=
  mkDocument (logContainer d) (pagination d) v (selectionToolbar d)
    (selectedCount d) (keywordOptions d) (keywordValue d) (literatureStats d)
    (statsContent d) (tasksList d) (counters d) (downloadTasksList d)
    (maxWorkers d) (downloadTabClicks d).
Definition set_selectionToolbar (v : bool) (d : Document) : Document :=
  mkDocument (logContainer d) (pagination d) (articlesList d) v
    (selectedCount d) (keywordOptions d) (keywordValue d) (literatureStats d)
    (statsContent d) (tasksList d) (counters d) (downloadTasksList d)
    (maxWorkers d) (downloadTabClicks d).
Definition set_selectedCount (v : nat) (d : Document) : Document :=
  mkDocument (logContainer d) (pagination d) (articlesList d)
    (selectionToolbar d) v (keywordOptions d) (keywordValue d)
    (literatureStats d) (statsContent d) (tasksList d) (counters d)
    (downloadTasksList d) (maxWorkers d) (downloadTabClicks d).
Definition set_keywordOptions (v : list string) (d : Document) : Document :=
  mkDocument (logContainer d) (pagination d) (articlesList d)
    (selectionToolbar d) (selectedCount d) v (keywordValue d)
    (literatureStats d) (statsContent d) (tasksList d) (counters d)
    (downloadTasksList d) (maxWorkers d) (downloadTabClicks d).
Definition set_keywordValue (v : string) (d : Document) : Document :=
  mkDocument (logContainer d) (pagination d) (articlesList d)
    (selectionToolbar d) (selectedCount d) (keywordOptions d) v
    (literatureStats d) (statsContent d) (tasksList d) (counters d)
    (downloadTasksList d) (maxWorkers d) (downloadTabClicks d).
Definition set_literatureStats (v : bool) (d : Document) : Document :=
  mkDocument (logContainer d) (pagination d) (articlesList d)
    (selectionToolbar d) (selectedCount d) (keywordOptions d) (keywordValue d)
    v (statsContent d) (tasksList d) (counters d) (downloadTasksList d)
    (maxWorkers d) (downloadTabClicks d).
Definition set_statsContent (v : list Stat) (d : Document) : Document :=
  mkDocument (logContainer d) (pagination d) (articlesList d)
    (selectionToolbar d) (selectedCount d) (keywordOptions d) (keywordValue d)
    (literatureStats d) v (tasksList d) (counters d) (downloadTasksList d)
    (maxWorkers d) (downloadTabClicks d).
Definition set_tasksList (v : list Task) (d : Document) : Document :=
  mkDocument (logContainer d) (pagination d) (articlesList d)
    (selectionToolbar d) (selectedCount d) (keywordOptions d) (keywordValue d)
    (literatureStats d) (statsContent d) v (counters d) (downloadTasksList d)
    (maxWorkers d) (downloadTabClicks d).
Definition set_counters (v : Counters) (d : Document) : Document :=
  mkDocument (logContainer d) (pagination d) (articlesList d)
    (selectionToolbar d) (selectedCount d) (keywordOptions d) (keywordValue d)
    (literatureStats d) (statsContent d) (tasksList d) v (downloadTasksList d)
    (maxWorkers d) (downloadTabClicks d).
Definition set_downloadTasksList (v : list DownloadTask) (d : Document) : Document :=
  mkDocument (logContainer d) (pagination d) (articlesList d)
    (selectionToolbar d) (selectedCount d) (keywordOptions d) (keywordValue d)
    (literatureStats d) (statsContent d) (tasksList d) (counters d) v
    (maxWorkers d) (downloadTabClicks d).
Definition set_downloadTabClicks (v : nat) (d : Document) : Document :=
  mkDocument (logContainer d) (pagination d) (articlesList d)
    (selectionToolbar d) (selectedCount d) (keywordOptions d) (keywordValue d)
    (literatureStats d) (statsContent d) (tasksList d) (counters d)
    (downloadTasksList d) (maxWorkers d) v.

(** [await fetch(req)]: the request leaves, the continuation is parked. *)
Definition fetch (req : request) (k : cont) : World → World :=
  with_browser (λ b, mkBrowser (net b ++ [req]) (inflight b ++ [k])
                               (timers b) (nextTimer b) (console b)).

Definition console_error (text : string) : World → World :=
  with_browser (λ b, mkBrowser (net b) (inflight b) (timers b) (nextTimer b)
                               (console b ++ [text])).

(* ===================================================================== *)
(** ** CNKIApp.addLog *)
(* ===================================================================== *)

Module EventLog.

Definition logClasses : gmap string string :=
  {[ "info" := "text-info"; "success" := "text-success";
     "error" := "text-danger"; "warning" := "text-warning" ]}.

Definition logClass (level : string) : string :=
  default "text-muted" (logClasses !! level).

Definition entry (level message : string) : LogEntry :=
  mkLogEntry ("log-entry " +:+ logClass level) message.

(** appendChild, then drop the oldest child once there are more than 100 *)
Definition append (e : LogEntry) (logs : list LogEntry) : list LogEntry :=
  let logs' := logs ++ [e] in
  if bool_decide (100 < length logs') then drop 1 logs' else logs'.

Definition set_log (l : option (list LogEntry)) (d : Document) : Document :=
  mkDocument l (pagination d) (articlesList d) (selectionToolbar d)
    (selectedCount d) (keywordOptions d) (keywordValue d) (literatureStats d)
    (statsContent d) (tasksList d) (counters d) (downloadTasksList d)
    (maxWorkers d) (downloadTabClicks d).

Definition addLog (level message : string) (w : World) : World :=
  match logContainer (document w) with
  | None => w
  | Some logs => with_document (set_log (Some (append (entry level message) logs))) w
  end.

End EventLog.
Export EventLog.

(* ===================================================================== *)
(** ** DownloadManager (static/js/download.js) *)
(* ===================================================================== *)

Module DownloadManager.

Definition displayTasks (ts : list DownloadTask) : World → World :=
  with_document (set_downloadTasksList ts).

Definition loadTasks : World → World := fetch GetDownloadTasks KDownloadTasks.

Definition loadTasks_k (o : outcome (list DownloadTask)) (w : World) : World :=
  match o with
  | Success data => displayTasks data w
  | Failure e => addLog "error" ("加载下载任务失败: " +:+ e) w
  | Rejected m => addLog "error" ("网络错误: " +:+ m) w
  end.

End DownloadManager.

(* ===================================================================== *)
(** ** ArticleManager (static/js/articles.js) *)
(* ===================================================================== *)

Module ArticleManager.

Definition set_selectedArticles (s : list Z) (a : App) : App :=
  mkApp s (currentArticles a) (currentPage a) (totalPages a) (articlesPerPage a).

Definition updateSelectionToolbar (w : World) : World :=
  let size := length (selectedArticles (app w)) in
  if bool_decide (0 < size)
  then with_document (λ d, set_selectedCount size (set_selectionToolbar true d)) w
  else with_document (set_selectionToolbar false) w.

Definition createArticleCard (w : World) (a : Article) : ArticleCard :=
  mkCard (article_id a) (has (selectedArticles (app w)) (article_id a)).

Definition displayArticles (articles : list Article) (w : World) : World :=
  match articles with
  | [] => with_document (set_articlesList []) w
  | _ :: _ =>
      updateSelectionToolbar
        (with_document (set_articlesList (createArticleCard w <$> articles)) w)
  end.

(** The items built by [updatePagination] when there is more than one
    page: previous link, the [for] loop from [startPage] to [endPage],
    next link. *)
Definition pageItems (currentPage totalPages : Z) : list PageItem :=
  let startPage := Z.max 1 (currentPage - 2) in
  let endPage := Z.min totalPages (currentPage + 2) in
  (if bool_decide (1 < currentPage)%Z then [PrevLink (currentPage - 1)] else [])
  ++ ((λ i, PageLink i (bool_decide (i = currentPage)))
        <$> seqZ startPage (endPage - startPage + 1))
  ++ (if bool_decide (currentPage < totalPages)%Z
      then [NextLink (currentPage + 1)] else []).

Definition updatePagination (w : World) : World :=
  match pagination (document w) with
  | None => w
  | Some _ =>
      if bool_decide (totalPages (app w) ≤ 1)%Z
      then with_document (set_pagination (Some [])) w
      else with_document
             (set_pagination
                (Some (pageItems (currentPage (app w)) (totalPages (app w))))) w
  end.

(** The select is rebuilt; an option equal to the old value stays
    selected, otherwise the value falls back to the first option, "". *)
Definition updateKeywordFilter (keywords : list string) (w : World) : World :=
  let currentValue := keywordValue (document w) in
  with_document
    (λ d, set_keywordValue (if has keywords currentValue then currentValue else "")
            (set_keywordOptions keywords d)) w.

Definition displayLiteratureStats (stats : list Stat) (w : World) : World :=
  match stats with
  | [] => with_document (set_literatureStats false) w
  | _ :: _ =>
      with_document (λ d, set_statsContent stats (set_literatureStats true d)) w
  end.

Definition loadLiteratureStats : World → World :=
  fetch GetLiteratureStats KLiteratureStats.

Definition loadLiteratureStats_k (o : outcome (list Stat)) (w : World) : World :=
  match o with
  | Success stats => displayLiteratureStats stats w
  | Failure e => console_error ("加载文献类型统计失败: " +:+ e) w
  | Rejected m => console_error ("网络错误: " +:+ m) w
  end.

Definition loadArticles (page : Z) (search keyword literatureType : string)
    (w : World) : World :=
  fetch (GetArticles page (articlesPerPage (app w)) search keyword literatureType)
        KLoadArticles w.

Definition loadArticles_k (o : outcome ArticlesPage) (w : World) : World :=
  match o with
  | Success result =>
      let w1 :=
        with_app (λ a, mkApp (selectedArticles a) (r_articles result)
                         (r_page result)
                         (ceil_div (r_total result) (r_per_page result))
                         (articlesPerPage a)) w in
      let w2 := displayArticles (currentArticles (app w1)) w1 in
      let w3 := updatePagination w2 in
      let keywords :=
        from_array (filter (λ k, k ≠ "") (article_keyword <$> r_articles result)) in
      let w4 := updateKeywordFilter keywords w3 in
      loadLiteratureStats w4
  | Failure e => addLog "error" ("加载文章失败: " +:+ e) w
  | Rejected m => addLog "error" ("网络错误: " +:+ m) w
  end.

(** [classList.toggle('selected', flag)] on the first card with that id *)
Fixpoint toggle_card (articleId : Z) (flag : bool) (cards : list ArticleCard)
    : list ArticleCard :=
  match cards with
  | [] => []
  | c :: cs =>
      if bool_decide (card_id c = articleId)
      then mkCard (card_id c) flag :: cs
      else c :: toggle_card articleId flag cs
  end.

Definition toggleSelection (articleId : Z) (w : World) : World :=
  let s := selectedArticles (app w) in
  let w1 :=
    with_app (set_selectedArticles
                (if has s articleId then delete s articleId else add s articleId)) w in
  let w2 := updateSelectionToolbar w1 in
  with_document
    (λ d, set_articlesList
            (toggle_card articleId (has (selectedArticles (app w2)) articleId)
               (articlesList d)) d) w2.

Definition selectAll (w : World) : World :=
  let w1 :=
    with_app (λ a, set_selectedArticles
                     (foldl (λ s article, add s (article_id article))
                        (selectedArticles a) (currentArticles a)) a) w in
  displayArticles (currentArticles (app w1)) w1.

Definition clearSelection (w : World) : World :=
  let w1 := with_app (set_selectedArticles []) w in
  displayArticles (currentArticles (app w1)) w1.

Definition downloadSelected (w : World) : World :=
  if bool_decide (length (selectedArticles (app w)) = 0)
  then addLog "error" "请先选择要下载的文章" w
  else
    let articleIds := selectedArticles (app w) in
    fetch (PostArticlesDownload articleIds (maxWorkers (document w)))
          (KDownloadSelected articleIds) w.

Definition downloadSelected_k (articleIds : list Z) (o : outcome unit)
    (w : World) : World :=
  match o with
  | Success _ =>
      let w1 :=
        addLog "info"
          ("已启动下载任务，共 " +:+ pretty (length articleIds) +:+ " 篇文章") w in
      let w2 := clearSelection w1 in
      let w3 := DownloadManager.loadTasks w2 in
      with_document (λ d, set_downloadTabClicks (S (downloadTabClicks d)) d) w3
  | Failure e => addLog "error" ("启动下载失败: " +:+ e) w
  | Rejected m => addLog "error" ("网络错误: " +:+ m) w
  end.

Definition downloadSingle (articleId : Z) (w : World) : World :=
  fetch (PostArticlesDownload [articleId] (Some 1%Z)) KDownloadSingle w.

Definition downloadSingle_k (o : outcome unit) (w : World) : World :=
  match o with
  | Success _ =>
      DownloadManager.loadTasks (addLog "info" "已启动单篇文章下载" w)
  | Failure e => addLog "error" ("启动下载失败: " +:+ e) w
  | Rejected m => addLog "error" ("网络错误: " +:+ m) w
  end.

End ArticleManager.

(* ===================================================================== *)
(** ** TaskManager *)
(* ===================================================================== *)

Module TaskManager.

Definition set_tasks (ts : list Task) (m : TaskManager) : TaskManager :=
  mkTaskManager ts (refreshInterval m) (autoRefreshEnabled m).
Definition set_refreshInterval (i : option positive) (m : TaskManager)
    : TaskManager :=
  mkTaskManager (tasks m) i (autoRefreshEnabled m).

Definition displayTasks (ts : list Task) : World → World :=
  with_document (set_tasksList ts).

(** The literal [stats] object of [updateTaskStats]. *)
Definition stats0 : gmap string nat :=
  {[ "running" := 0; "paused" := 0; "completed" := 0; "failed" := 0 ]}.

(** One round of the [forEach]: [hasOwnProperty], then [++]. *)
Definition count_task (stats : gmap string nat) (task : Task) : gmap string nat :=
  match stats !! status task with
  | Some n => <[status task := S n]> stats
  | None => stats
  end.

Definition taskStats (ts : list Task) : gmap string nat :=
  foldl count_task stats0 ts.

Definition updateTaskStats (w : World) : World :=
  let stats := taskStats (tasks (taskManager w)) in
  with_document
    (set_counters
       (mkCounters (default 0 (stats !! "running")) (default 0 (stats !! "paused"))
                   (default 0 (stats !! "completed")) (default 0 (stats !! "failed"))))
    w.

Definition loadTasks : World → World := fetch GetTasks KLoadTasks.

Definition loadTasks_k (o : outcome (list Task)) (w : World) : World :=
  match o with
  | Success result_tasks =>
      let w1 := with_taskManager (set_tasks result_tasks) w in
      let w2 := displayTasks (tasks (taskManager w1)) w1 in
      updateTaskStats w2
  | Failure e => addLog "error" ("加载任务失败: " +:+ e) w
  | Rejected m => addLog "error" ("网络错误: " +:+ m) w
  end.

(** [pauseTask], [resumeTask] and [stopTask] differ in the endpoint and
    in two messages only. *)
Definition done_message (v : verb) : string :=
  match v with
  | Pause => "任务已暂停" | Resume => "任务已恢复" | Stop => "任务已停止"
  end.
Definition failed_prefix (v : verb) : string :=
  match v with
  | Pause => "暂停任务失败: " | Resume => "恢复任务失败: " | Stop => "停止任务失败: "
  end.

Definition controlTask (v : verb) (taskId : Z) : World → World :=
  fetch (PostTaskControl taskId v) (KTaskControl v).

Definition pauseTask : Z → World → World := controlTask Pause.
Definition resumeTask : Z → World → World := controlTask Resume.
Definition stopTask : Z → World → World := controlTask Stop.

Definition controlTask_k (v : verb) (o : outcome unit) (w : World) : World :=
  match o with
  | Success _ => loadTasks (addLog "success" (done_message v) w)
  | Failure e => addLog "error" (failed_prefix v +:+ e) w
  | Rejected m => addLog "error" ("网络错误: " +:+ m) w
  end.

Definition clearInterval (id : positive) : World → World :=
  with_browser (λ b, mkBrowser (net b) (inflight b)
                               (filter (λ t, t ≠ id) (timers b))
                               (nextTimer b) (console b)).

(** [setInterval(callback, 5000)]: a fresh id, now live. *)
Definition setInterval (w : World) : positive * World :=
  let id := nextTimer (browser w) in
  (id, with_browser (λ b, mkBrowser (net b) (inflight b) (timers b ++ [id])
                                    (Pos.succ id) (console b)) w).

Definition startAutoRefresh (w : World) : World :=
  let w1 :=
    match refreshInterval (taskManager w) with
    | Some id => clearInterval id w
    | None => w
    end in
  let '(id, w2) := setInterval w1 in
  with_taskManager (set_refreshInterval (Some id)) w2.

Definition stopAutoRefresh (w : World) : World :=
  match refreshInterval (taskManager w) with
  | Some id =>
      with_taskManager (set_refreshInterval None) (clearInterval id w)
  | None => w
  end.

(** The arrow function handed to [setInterval]. *)
Definition refresh_callback (w : World) : World :=
  if autoRefreshEnabled (taskManager w) then loadTasks w else w.

(** The two tab listeners installed by [init]. *)
Definition on_tab_shown (w : World) : World := startAutoRefresh (loadTasks w).
Definition on_tab_hidden (w : World) : World := stopAutoRefresh w.

End TaskManager.

(* ===================================================================== *)
(** ** The event loop *)
(* ===================================================================== *)

Module Loop.
Import ArticleManager.

(** Calls made by the user or by a DOM listener. *)
Inductive action : Type :=
| LoadArticles (page : Z) (search keyword literatureType : string)
| ToggleSelection (articleId : Z)
| SelectAll
| ClearSelection
| DownloadSelected
| DownloadSingle (articleId : Z)
| LoadTasks
| ControlTask (v : verb) (taskId : Z)
| TasksTabShown
| TasksTabHidden.

Definition perform (a : action) : World → World :=
  match a with
  | LoadArticles page search keyword literatureType =>
      loadArticles page search keyword literatureType
  | ToggleSelection articleId => toggleSelection articleId
  | SelectAll => selectAll
  | ClearSelection => clearSelection
  | DownloadSelected => downloadSelected
  | DownloadSingle articleId => downloadSingle articleId
  | LoadTasks => TaskManager.loadTasks
  | ControlTask v taskId => TaskManager.controlTask v taskId
  | TasksTabShown => TaskManager.on_tab_shown
  | TasksTabHidden => TaskManager.on_tab_hidden
  end.

(** The payload each parked continuation expects. *)
Definition payload (k : cont) : Type :=
  match k with
  | KLoadArticles => ArticlesPage
  | KDownloadSelected _ | KDownloadSingle | KTaskControl _ => unit
  | KLiteratureStats => list Stat
  | KDownloadTasks => list DownloadTask
  | KLoadTasks => list Task
  end.

Definition resume (k : cont) : outcome (payload k) → World → World :=
  match k with
  | KLoadArticles => loadArticles_k
  | KDownloadSelected articleIds => downloadSelected_k articleIds
  | KDownloadSingle => downloadSingle_k
  | KLiteratureStats => loadLiteratureStats_k
  | KDownloadTasks => DownloadManager.loadTasks_k
  | KLoadTasks => TaskManager.loadTasks_k
  | KTaskControl v => TaskManager.controlTask_k v
  end.

Fixpoint remove_first (k : cont) (ks : list cont) : list cont :=
  match ks with
  | [] => []
  | k' :: ks' => if bool_decide (k' = k) then ks' else k' :: remove_first k ks'
  end.

Definition unpark (k : cont) : World → World :=
  with_browser (λ b, mkBrowser (net b) (remove_first k (inflight b))
                               (timers b) (nextTimer b) (console b)).

Inductive event : Type :=
| Do (a : action)
| Tick (id : positive)                          (* an interval elapses *)
| Settle (k : cont) (o : outcome (payload k)).  (* a reply arrives *)

(** A tick of a cleared timer and a reply nobody waits for do nothing. *)
Definition step (w : World) (e : event) : World :=
  match e with
  | Do a => perform a w
  | Tick id =>
      if bool_decide (id ∈ timers (browser w))
      then TaskManager.refresh_callback w else w
  | Settle k o =>
      if bool_decide (k ∈ inflight (browser w))
      then resume k o (unpark k w) else w
  end.

Definition run (es : list event) (w : World) : World := foldl step w es.

(** The page right after the constructors ran, with both optional
    containers present and [#maxWorkers] holding [workers]. *)
Definition initial (workers : option Z) : World :=
  mkWorld (mkApp [] [] 1 1 10)
          (mkTaskManager [] None true)
          (mkDocument (Some []) (Some []) [] false 0 [] "" false [] []
                      (mkCounters 0 0 0 0) [] workers 0)
          (mkBrowser [] [] [] 1%positive []).

End Loop.

(* ===================================================================== *)
(** ** ResourceManager.renderFileList (static/js/resources.js) *)
(* ===================================================================== *)

Module ResourceManager.

(** One entry of a listing.  [modified] is the instant that
    [new Date(file.modified)] denotes, in milliseconds. *)
Record File := mkFile {
  name : string;
  path : string;
  size : Z;
  modified : Z;
  relative_path : string;            (* "" when the server sent none *)
}.

Record Options := mkOptions { icon : string; showRelative : bool }.

(** One [a.list-group-item]. *)
Record Item := mkItem {
  item_path : string;                (* the path opened by the link *)
  item_icon : string;
  item_name : string;
  item_extra : option string;        (* the "(relative path)" suffix *)
  item_modified : Z;
  item_size : Z;
}.

(** What a listing container shows. *)
Inductive View : Type :=
| NoFiles (icon : string)
| ListGroup (items : list Item)
| LoadError (message : string).

(** [Array.prototype.sort(compare)]: a stable sort; an element goes
    before the first one it does not have to follow. *)
Section Sort.
Context {A : Type} (compare : A → A → Z).

Fixpoint insert_sorted (x : A) (l : list A) : list A :=
  match l with
  | [] => [x]
  | y :: l' =>
      if bool_decide (compare x y ≤ 0)%Z then x :: y :: l'
      else y :: insert_sorted x l'
  end.

Definition sort (l : list A) : list A := foldr insert_sorted [] l.
End Sort.

(** [(a, b) => new Date(b.modified) - new Date(a.modified)] *)
Definition by_modified (a b : File) : Z := (modified b - modified a)%Z.

Definition render_item (o : Options) (file : File) : Item :=
  mkItem (path file) (icon o) (name file)
         (if showRelative o && negb (bool_decide (relative_path file = ""))
          then Some (relative_path file) else None)
         (modified file) (size file).

Definition renderFileList (files : list File) (o : Options) : View :=
  match files with
  | [] => NoFiles (icon o)
  | _ :: _ => ListGroup (render_item o <$> sort by_modified files)
  end.

Definition renderError (message : string) : View := LoadError message.

(** The options passed by the four loaders. *)
Definition links_options := mkOptions "bi-link-45deg" false.
Definition downloads_options := mkOptions "bi-download" true.
Definition exports_options := mkOptions "bi-filetype-csv" false.
Definition logs_options := mkOptions "bi-journal-text" false.

End ResourceManager.

(* ===================================================================== *)
(** ** Vocabulary of the statements *)
(* ===================================================================== *)

Module Props.
Import ArticleManager Loop.

(** The number of tasks bearing status [s]. *)
Definition count_status (s : string) (ts : list Task) : nat :=
  length (filter (λ t, status t = s) ts).

(** The keys of the [stats] literal. *)
Definition tracked : list string := ["running"; "paused"; "completed"; "failed"].

Definition counters_of (ts : list Task) : Counters :=
  mkCounters (count_status "running" ts) (count_status "paused" ts)
             (count_status "completed" ts) (count_status "failed" ts).

(** The page indices shown in [#pagination]. *)
Definition page_index (it : PageItem) : option Z :=
  match it with PageLink i _ => Some i | _ => None end.

Definition visibleWindow (w : World) : list Z :=
  match pagination (document w) with
  | Some items => omap page_index items
  | None => []
  end.


(** Events of loading article pages: the call, its reply, and the reply
    of the statistics request a successful load sends. *)
Definition is_load (e : event) : Prop :=
  match e with
  | Do (LoadArticles _ _ _ _) => True
  | Settle KLoadArticles _ => True
  | Settle KLiteratureStats _ => True
  | _ => False
  end.

Definition selection (w : World) : list Z := selectedArticles (app w).


(** A reply of /api/articles carrying articles 3, 7 and 9 as page [p]
    of 95 results, ten per page; used by the examples. *)
Definition sample_page (p : Z) : ArticlesPage :=
  mkArticlesPage
    ((λ i, mkArticle i "舆情" "journal" "normal") <$> [3; 7; 9]%Z) p 10 95.

(** [a] may stand before [b]: it was modified no earlier. *)
Definition not_older (a b : ResourceManager.File) : Prop :=
  (ResourceManager.modified b ≤ ResourceManager.modified a)%Z.

(** Descending order of modification time, on the rendered rows. *)
Definition newer_first (a b : ResourceManager.Item) : Prop :=
  (ResourceManager.item_modified b ≤ ResourceManager.item_modified a)%Z.

End Props.

(* ===================================================================== *)
(** ** More of ArticleManager: searching and following a page link *)
(* ===================================================================== *)

Module ArticleLinks.
Import ArticleManager.

(** [searchArticles]: the search box and the type select are not part of
    [Document], so their values are arguments; the keyword comes from
    [#keywordFilter]; the page is always 1. *)
Definition searchArticles (articleSearch literatureTypeFilter : string)
    (w : World) : World :=
  loadArticles 1 articleSearch (keywordValue (document w)) literatureTypeFilter w.

(** The [onclick] of a pagination item: [articleManager.loadArticles(n)],
    the other three parameters taking their default, the empty string. *)
Definition link_target (it : PageItem) : Z :=
  match it with PrevLink t => t | PageLink i _ => i | NextLink t => t end.

Definition click (it : PageItem) : World → World :=
  loadArticles (link_target it) "" "" "".

End ArticleLinks.

(* ===================================================================== *)
(** ** More of TaskManager: the buttons of a card and the bulk actions *)
(* ===================================================================== *)

Module TaskActions.
Import TaskManager Loop.

(** The buttons pushed by [createTaskActions], in order. *)
Inductive TaskButton : Type :=
| PauseButton (taskId : Z)
| ResumeButton (taskId : Z)
| StopButton (taskId : Z)
| DetailsButton (taskId : Z).

Global Instance TaskButton_eq_dec : EqDecision TaskButton.
Proof. solve_decision. Defined.

Definition createTaskActions (task : Task) : list TaskButton :=
  (if bool_decide (status task = "running")
   then [PauseButton (task_id task); StopButton (task_id task)]
   else if bool_decide (status task = "paused") && can_resume task
   then [ResumeButton (task_id task); StopButton (task_id task)]
   else [])
  ++ [DetailsButton (task_id task)].

(** The three filters over [this.tasks]. *)
Definition runningTasks (w : World) : list Task :=
  filter (λ task, status task = "running") (tasks (taskManager w)).
Definition pausedTasks (w : World) : list Task :=
  filter (λ task, status task = "paused" ∧ can_resume task = true)
         (tasks (taskManager w)).
Definition activeTasks (w : World) : list Task :=
  filter (λ task, status task ∈ ["running"; "paused"]) (tasks (taskManager w)).






End TaskActions.

(* ===================================================================== *)
(** ** More of ResourceManager: the four loaders *)
(* ===================================================================== *)

Module ResourceLoader.
Import ResourceManager.

Inductive category : Type := Links | Downloads | Exports | Logs.

Global Instance category_eq_dec : EqDecision category.
Proof. solve_decision. Defined.

Definition options_of (c : category) : Options :=
  match c with
  | Links => links_options
  | Downloads => downloads_options
  | Exports => exports_options
  | Logs => logs_options
  end.

(** The four containers ([None]: the element is not in the page) and the
    listing requests sent so far. *)
Record Panels := mkPanels {
  linkFilesList : option View;
  downloadFilesList : option View;
  exportFilesList : option View;
  logFilesList : option View;
  requested : list category;
}.

Definition panel (c : category) (p : Panels) : option View :=
  match c with
  | Links => linkFilesList p
  | Downloads => downloadFilesList p
  | Exports => exportFilesList p
  | Logs => logFilesList p
  end.

(** [container.innerHTML = ...] on the container of [c], when it exists *)
Definition show (c : category) (v : View) (p : Panels) : Panels :=
  match panel c p with
  | None => p
  | Some _ =>
      match c with
      | Links => mkPanels (Some v) (downloadFilesList p) (exportFilesList p)
                          (logFilesList p) (requested p)
      | Downloads => mkPanels (linkFilesList p) (Some v) (exportFilesList p)
                              (logFilesList p) (requested p)
      | Exports => mkPanels (linkFilesList p) (downloadFilesList p) (Some v)
                            (logFilesList p) (requested p)
      | Logs => mkPanels (linkFilesList p) (downloadFilesList p)
                         (exportFilesList p) (Some v) (requested p)
      end
  end.

(** [loadLinkFiles], [loadDownloadFiles], [loadExportFiles] and
    [loadLogFiles] up to their [await]: nothing is sent when the
    container is missing. *)
Definition loadFiles (c : category) (p : Panels) : Panels :=
  match panel c p with
  | None => p
  | Some _ =>
      mkPanels (linkFilesList p) (downloadFilesList p) (exportFilesList p)
               (logFilesList p) (requested p ++ [c])
  end.

(** Their continuation: [data.error || '加载失败'] is thrown and caught
    when the envelope reports a failure ([""] stands for no error text). *)
Definition loadFiles_k (c : category) (o : outcome (list File)) (p : Panels)
    : Panels :=
  match o with
  | Success data => show c (renderFileList data (options_of c)) p
  | Failure e => show c (renderError (if bool_decide (e = "") then "加载失败" else e)) p
  | Rejected m => show c (renderError m) p
  end.

(** [loadAll]: the array handed to [Promise.all] is built left to right. *)
Definition loadAll (p : Panels) : Panels :=
  loadFiles Logs (loadFiles Exports (loadFiles Downloads (loadFiles Links p))).

End ResourceLoader.

(* ===================================================================== *)
(** ** Vocabulary of the further statements *)
(* ===================================================================== *)

Module Invariants.
Import ArticleManager Loop Props.

(** The log holds at most 100 entries (when there is a log). *)
Definition log_bounded (w : World) : Prop :=
  ∀ logs, logContainer (document w) = Some logs → length logs ≤ 100.

(** The only live interval is the one [refreshInterval] names. *)
Definition single_timer (w : World) : Prop :=
  timers (browser w)
  = match refreshInterval (taskManager w) with Some id => [id] | None => [] end.

(** What is rendered of the tasks is what [this.tasks] holds. *)
Definition tasks_in_sync (w : World) : Prop :=
  tasksList (document w) = tasks (taskManager w)
  ∧ counters (document w) = counters_of (tasks (taskManager w)).

(** A download request names at least one article and none twice. *)
Definition well_formed (r : request) : Prop :=
  match r with
  | PostArticlesDownload ids _ => ids ≠ [] ∧ NoDup ids
  | _ => True
  end.

Definition downloads_well_formed (w : World) : Prop :=
  NoDup (selection w) ∧ Forall well_formed (net (browser w)).

(** Every card carries the [selected] class exactly when its article is
    selected. *)
Definition cards_reflect_selection (w : World) : Prop :=
  Forall (λ c, card_selected c = has (selection w) (card_id c))
         (articlesList (document w)).

Definition is_active (it : PageItem) : Prop :=
  match it with PageLink _ true => True | _ => False end.

(** What the task view is made of: the task list, what is rendered of
    it, and the refresh timer. *)
Definition task_view (w : World)
    : list Task * list Task * Counters * option positive * list positive :=
  (tasks (taskManager w), tasksList (document w), counters (document w),
   refreshInterval (taskManager w), timers (browser w)).

End Invariants.

(* ===================================================================== *)
(** ** Task statistics *)
(* ===================================================================== *)

Section TaskStats.
Import TaskManager Props.

Lemma count_status_cons s t ts :
  count_status s (t :: ts)
  = (if bool_decide (status t = s) then 1 else 0) + count_status s ts.
Proof.
  unfold count_status. rewrite filter_cons.
  case_bool_decide; case_decide; simpl; congruence.
Qed.

(** The loop only ever adds to the keys it started with. *)
Lemma foldl_count_task ts : ∀ (acc : gmap string nat) s,
  foldl count_task acc ts !! s = (λ n, n + count_status s ts) <$> acc !! s.
Proof.
  induction ts as [|t ts IH]; intros acc s; simpl.
  - destruct (acc !! s) as [n|]; simpl; [f_equal; unfold count_status; simpl; lia | done].
  - rewrite IH, count_status_cons. unfold count_task.
    destruct (acc !! status t) as [n|] eqn:Ht.
    + case_bool_decide as Hs.
      * subst s. rewrite lookup_insert_eq, Ht. simpl. f_equal. lia.
      * rewrite lookup_insert_ne by done.
        destruct (acc !! s); simpl; [f_equal; lia | done].
    + case_bool_decide as Hs.
      * subst s. by rewrite Ht.
      * destruct (acc !! s); simpl; [f_equal; lia | done].
Qed.

Lemma stats0_lookup s :
  stats0 !! s = if bool_decide (s ∈ tracked) then Some 0 else None.
Proof.
  unfold stats0, tracked. case_bool_decide as H.
  - set_unfold in H. destruct H as [->|[->|[->|[->|[]]]]]; by vm_compute.
  - set_unfold in H.
    rewrite !lookup_insert_ne, lookup_singleton_ne by naive_solver. done.
Qed.

Lemma taskStats_lookup ts s :
  taskStats ts !! s
  = if bool_decide (s ∈ tracked) then Some (count_status s ts) else None.
Proof.
  unfold taskStats. rewrite foldl_count_task, stats0_lookup.
  by case_bool_decide.
Qed.

Lemma updateTaskStats_counters w :
  counters (document (updateTaskStats w)) = counters_of (tasks (taskManager w)).
Proof.
  unfold updateTaskStats, counters_of; simpl.
  by rewrite !taskStats_lookup.
Qed.

End TaskStats.

(* ===================================================================== *)
(** ** Pagination *)
(* ===================================================================== *)

Section Pagination.
Import ArticleManager Props.
Local Open Scope Z_scope.

Lemma ceil_div_bounds a b :
  0 < b → b * (ceil_div a b - 1) < a ≤ b * ceil_div a b.
Proof.
  intros Hb. unfold ceil_div.
  pose proof (Z.div_mod (- a) b) as Hdiv.
  pose proof (Z.mod_pos_bound (- a) b Hb) as Hmod.
  lia.
Qed.

Lemma omap_page_links (f : Z → bool) (l : list Z) :
  omap page_index ((λ i, PageLink i (f i)) <$> l) = l.
Proof. induction l as [|i l IH]; csimpl; [done | by rewrite IH]. Qed.

Lemma window_of_pageItems p tp :
  omap page_index (pageItems p tp)
  = seqZ (Z.max 1 (p - 2)) (Z.min tp (p + 2) - Z.max 1 (p - 2) + 1).
Proof.
  unfold pageItems. rewrite !omap_app, omap_page_links.
  do 2 case_bool_decide; simpl; by rewrite ?app_nil_r.
Qed.

Lemma seqZ_ascending n : ∀ m, StronglySorted Z.lt (seqZ m (Z.of_nat n)).
Proof.
  induction n as [|n IH]; intros m.
  - rewrite seqZ_nil by lia. constructor.
  - rewrite seqZ_cons by lia.
    replace (Z.pred (Z.of_nat (S n))) with (Z.of_nat n) by lia.
    constructor; [apply IH |].
    apply Forall_seqZ. intros; lia.
Qed.

Lemma seqZ_ascending_Z m n : StronglySorted Z.lt (seqZ m n).
Proof.
  destruct (decide (n ≤ 0)) as [Hn|Hn].
  - rewrite seqZ_nil by done. constructor.
  - rewrite <- (Z2Nat.id n) by lia. apply seqZ_ascending.
Qed.

(** [updateSelectionToolbar], [displayArticles], [updateKeywordFilter]
    and the statistics request leave [#pagination] and the app alone. *)
Lemma displayArticles_pagination l w :
  pagination (document (displayArticles l w)) = pagination (document w).
Proof.
  destruct l; simpl; [done |]. unfold updateSelectionToolbar.
  by case_bool_decide.
Qed.

Lemma displayArticles_app l w : app (displayArticles l w) = app w.
Proof.
  destruct l; simpl; [done |]. unfold updateSelectionToolbar.
  by case_bool_decide.
Qed.

Lemma updatePagination_app w : app (updatePagination w) = app w.
Proof.
  unfold updatePagination. destruct (pagination (document w)); [|done].
  by case_bool_decide.
Qed.

Lemma visibleWindow_updatePagination w :
  visibleWindow (updatePagination w)
  = match pagination (document w) with
    | None => []
    | Some _ =>
        if bool_decide (totalPages (app w) ≤ 1) then []
        else seqZ (Z.max 1 (currentPage (app w) - 2))
                  (Z.min (totalPages (app w)) (currentPage (app w) + 2)
                   - Z.max 1 (currentPage (app w) - 2) + 1)
    end.
Proof.
  unfold visibleWindow, updatePagination.
  destruct (pagination (document w)) eqn:Hp; [| by rewrite Hp].
  case_bool_decide; simpl; [done |]. apply window_of_pageItems.
Qed.

Lemma loadArticles_k_app result w :
  app (loadArticles_k (Success result) w)
  = mkApp (selectedArticles (app w)) (r_articles result) (r_page result)
          (ceil_div (r_total result) (r_per_page result))
          (articlesPerPage (app w)).
Proof.
  simpl. by rewrite updatePagination_app, displayArticles_app.
Qed.

Lemma visibleWindow_loadArticles_k result w :
  let p := r_page result in
  let tp := ceil_div (r_total result) (r_per_page result) in
  visibleWindow (loadArticles_k (Success result) w)
  = match pagination (document w) with
    | None => []
    | Some _ =>
        if bool_decide (tp ≤ 1) then []
        else seqZ (Z.max 1 (p - 2)) (Z.min tp (p + 2) - Z.max 1 (p - 2) + 1)
    end.
Proof.
  intros p tp. cbv beta iota zeta delta [loadArticles_k].
  set (w2 := displayArticles _ _).
  transitivity (visibleWindow (updatePagination w2)); [done |].
  rewrite visibleWindow_updatePagination.
  unfold w2. by rewrite displayArticles_pagination, displayArticles_app.
Qed.

End Pagination.

(* ===================================================================== *)
(** ** Sorting of file listings *)
(* ===================================================================== *)

Section FileOrder.
Import ResourceManager Props.

Lemma insert_sorted_perm {A} (compare : A → A → Z) x l :
  insert_sorted compare x l ≡ₚ x :: l.
Proof.
  induction l as [|y l IH]; simpl; [done |].
  case_bool_decide; [done |]. rewrite IH. apply Permutation_swap.
Qed.

Lemma sort_perm {A} (compare : A → A → Z) l : sort compare l ≡ₚ l.
Proof.
  induction l as [|x l IH]; simpl; [done |].
  fold (sort compare l). by rewrite insert_sorted_perm, IH.
Qed.

Lemma insert_sorted_by_modified x l :
  StronglySorted not_older l →
  StronglySorted not_older (insert_sorted by_modified x l).
Proof.
  induction 1 as [|y l Hl IH Hy]; simpl.
  - repeat constructor.
  - unfold by_modified at 1. case_bool_decide as Hxy.
    + constructor; [by constructor |].
      constructor; [unfold not_older; lia |].
      eapply Forall_impl; [exact Hy |]. unfold not_older. intros; lia.
    + constructor; [exact IH |].
      rewrite insert_sorted_perm. constructor; [unfold not_older; lia | done].
Qed.

Lemma sort_by_modified l : StronglySorted not_older (sort by_modified l).
Proof.
  induction l as [|x l IH]; simpl; [constructor |].
  by apply insert_sorted_by_modified.
Qed.

(** Rows with equal timestamps keep the order the server sent them in
    (the sort is stable): sorting a list that is already in order
    changes nothing. *)
Lemma insert_sorted_head x l :
  Forall (not_older x) l → insert_sorted by_modified x l = x :: l.
Proof.
  destruct 1 as [|y l Hy _]; simpl; [done |].
  unfold by_modified, not_older in *. by rewrite bool_decide_eq_true_2 by lia.
Qed.

Lemma sort_sorted l : StronglySorted not_older l → sort by_modified l = l.
Proof.
  induction 1 as [|x l Hl IH Hx]; simpl; [done |].
  fold (sort by_modified l). rewrite IH. by apply insert_sorted_head.
Qed.

End FileOrder.

(* ===================================================================== *)
(** ** What the building blocks leave alone *)
(* ===================================================================== *)

Section Frames.
Import ArticleManager Loop Props.

Lemma addLog_app level text w : app (addLog level text w) = app w.
Proof. unfold addLog. by destruct (logContainer (document w)). Qed.

Lemma addLog_taskManager level text w :
  taskManager (addLog level text w) = taskManager w.
Proof. unfold addLog. by destruct (logContainer (document w)). Qed.

Lemma addLog_browser level text w : browser (addLog level text w) = browser w.
Proof. unfold addLog. by destruct (logContainer (document w)). Qed.

Lemma addLog_document level text w :
  document (addLog level text w)
  = set_log (append (entry level text) <$> logContainer (document w)) (document w).
Proof.
  unfold addLog. destruct (document w) as [[logs|] ? ? ? ? ? ? ? ? ? ? ? ? ?] eqn:Hd;
    simpl; by rewrite ?Hd.
Qed.

Lemma addLog_present level text w logs :
  logContainer (document w) = Some logs →
  logContainer (document (addLog level text w))
  = Some (append (entry level text) logs).
Proof. intros H. by rewrite addLog_document, H. Qed.

Lemma addLog_tasks_view level text w :
  tasksList (document (addLog level text w)) = tasksList (document w)
  ∧ counters (document (addLog level text w)) = counters (document w).
Proof. by rewrite addLog_document. Qed.

Lemma displayArticles_log l w :
  logContainer (document (displayArticles l w)) = logContainer (document w).
Proof.
  destruct l; simpl; [done |]. unfold updateSelectionToolbar.
  by case_bool_decide.
Qed.

Lemma displayArticles_browser l w : browser (displayArticles l w) = browser w.
Proof.
  destruct l; simpl; [done |]. unfold updateSelectionToolbar.
  by case_bool_decide.
Qed.

Lemma selection_addLog level text w : selection (addLog level text w) = selection w.
Proof. unfold selection. by rewrite addLog_app. Qed.

Lemma selection_displayArticles l w : selection (displayArticles l w) = selection w.
Proof. unfold selection. by rewrite displayArticles_app. Qed.

Lemma selection_loadArticles_k o w : selection (loadArticles_k o w) = selection w.
Proof.
  destruct o as [result|e|m].
  - unfold selection. by rewrite loadArticles_k_app.
  - apply selection_addLog.
  - apply selection_addLog.
Qed.

Lemma selection_loadLiteratureStats_k o w :
  selection (loadLiteratureStats_k o w) = selection w.
Proof. destruct o as [[|s stats]|e|m]; done. Qed.

Lemma selection_downloadSelected_k ids o w :
  selection (downloadSelected_k ids o w) = if failed o then selection w else [].
Proof.
  destruct o as [[]|e|m]; simpl; [| apply selection_addLog ..].
  change (selection (clearSelection (addLog "info"
    ("已启动下载任务，共 " +:+ pretty (length ids) +:+ " 篇文章") w)) = []).
  unfold clearSelection. by rewrite selection_displayArticles.
Qed.

Lemma run_cons e es w : run (e :: es) w = run es (step w e).
Proof. done. Qed.

Lemma downloadSelected_sends w :
  selection w ≠ [] →
  downloadSelected w
  = fetch (PostArticlesDownload (selection w) (maxWorkers (document w)))
          (KDownloadSelected (selection w)) w.
Proof.
  unfold downloadSelected, selection. intros Hsel.
  rewrite bool_decide_eq_false_2; [done |].
  destruct (selectedArticles (app w)); simpl; [done | lia].
Qed.

Lemma unpark_taskManager k w : taskManager (unpark k w) = taskManager w.
Proof. done. Qed.
Lemma unpark_document k w : document (unpark k w) = document w.
Proof. done. Qed.
Lemma unpark_timers k w : timers (browser (unpark k w)) = timers (browser w).
Proof. done. Qed.

Lemma parked_last (k : cont) (ks : list cont) : k ∈ ks ++ [k].
Proof. set_solver. Qed.

(** A reply to a request that is in flight runs its continuation. *)
Lemma clearSelection_toolbar w :
  selectionToolbar (document (clearSelection w))
  = match currentArticles (app w) with
    | [] => selectionToolbar (document w)
    | _ :: _ => false
    end.
Proof.
  unfold clearSelection. cbv zeta.
  cbn [app with_app currentArticles set_selectedArticles].
  destruct (currentArticles (app w)) as [|a l]; [done |].
  unfold displayArticles, updateSelectionToolbar. by cbn.
Qed.

(** [displayArticles] of a non-empty page as one assignment to the
    document. *)
Lemma displayArticles_nonempty a l w :
  displayArticles (a :: l) w
  = with_document
      (λ d,
         let size := length (selectedArticles (app w)) in
         let cards := createArticleCard w <$> a :: l in
         if bool_decide (0 < size)
         then set_selectedCount size (set_selectionToolbar true (set_articlesList cards d))
         else set_selectionToolbar false (set_articlesList cards d)) w.
Proof.
  unfold displayArticles, updateSelectionToolbar. cbn [app with_document].
  by case_bool_decide.
Qed.

(** [addLog] in list terms: the new entry is last; the oldest one is
    dropped when 100 or more were there. *)
Lemma append_as_list e logs :
  append e logs
  = (if bool_decide (100 ≤ length logs) then drop 1 logs else logs) ++ [e].
Proof.
  unfold append. rewrite length_app. simpl.
  case_bool_decide; case_bool_decide; try lia; [| done].
  destruct logs; [simpl in *; lia | done].
Qed.

Lemma addLog_log_as_list level text w :
  logContainer (document (addLog level text w))
  = (λ logs, (if bool_decide (100 ≤ length logs) then drop 1 logs else logs)
             ++ [entry level text]) <$> logContainer (document w).
Proof.
  rewrite addLog_document. simpl.
  destruct (logContainer (document w)); [| done]. simpl.
  by rewrite append_as_list.
Qed.

Lemma addLog_without_container level text w :
  logContainer (document w) = None → addLog level text w = w.
Proof. intros H. unfold addLog. by rewrite H. Qed.

Lemma step_settle k o w :
  k ∈ inflight (browser w) → step w (Settle k o) = resume k o (unpark k w).
Proof. intros H. simpl. by rewrite bool_decide_eq_true_2. Qed.

End Frames.

(* ===================================================================== *)
(** ** Selection and bulk dispatch *)
(* ===================================================================== *)

Section Dispatch.
Import ArticleManager Loop Props.

(** C1, as the specification words it, fails: with articles 3 and 7
    selected, a bulk dispatch answered by an error envelope, or cut by a
    transport error, leaves both ids selected. *)
Lemma selection_survives_failed_dispatch :
  let w := run [Do (ToggleSelection 3); Do (ToggleSelection 7)] (initial (Some 4%Z)) in
  let k := KDownloadSelected [3; 7]%Z in
  selection w = [3; 7]%Z
  ∧ selection (run [Do DownloadSelected; Settle k (Failure "quota")] w) = [3; 7]%Z
  ∧ selection (run [Do DownloadSelected; Settle k (Rejected "Failed to fetch")] w)
    = [3; 7]%Z
  ∧ ¬ (∀ o, selection (run [Do DownloadSelected; Settle k o] w) = []).
Proof.
  repeat split; try by vm_compute.
  intros H. specialize (H (Failure "quota")). by vm_compute in H.
Qed.

(** C1 (amended): a bulk dispatch of a non-empty selection empties the
    selection exactly when the reply reports success; on an error
    envelope or a transport error the selection is what it was.  The
    same holds for the continuation run on any later state. *)
Theorem selection_after_dispatch (w : World) (o : outcome unit) :
  selection w ≠ [] →
  selection (run [Do DownloadSelected; Settle (KDownloadSelected (selection w)) o] w)
  = (if failed o then selection w else [])
  ∧ ∀ ids w', selection (downloadSelected_k ids o w')
              = if failed o then selection w' else [].
Proof.
  intros Hsel. split; [| intros; apply selection_downloadSelected_k].
  rewrite !run_cons.
  change (step w (Do DownloadSelected)) with (downloadSelected w).
  rewrite downloadSelected_sends by done.
  rewrite step_settle by apply parked_last.
  cbv beta iota delta [run foldl resume].
  by rewrite selection_downloadSelected_k.
Qed.

Lemma selection_after_dispatch_witness :
  let w := run [Do (ToggleSelection 3); Do (ToggleSelection 7)] (initial (Some 4%Z)) in
  selection w ≠ []
  ∧ selection (run [Do DownloadSelected;
                    Settle (KDownloadSelected (selection w)) (Success ())] w) = [].
Proof.
  intros w.
  assert (selection w ≠ []) as H by (by vm_compute).
  split; [exact H |].
  exact (proj1 (selection_after_dispatch w (Success ()) H)).
Defined.

(** C8, as the specification words it, fails on a page that has no log
    container: with nothing selected [downloadSelected] then returns
    without producing any validation error; the world is what it was. *)
Lemma empty_selection_guard_silent_without_log :
  let w := with_document (set_log None) (initial (Some 4%Z)) in
  selection w = []
  ∧ logContainer (document w) = None
  ∧ step w (Do DownloadSelected) = w
  ∧ logContainer (document (step w (Do DownloadSelected))) = None.
Proof. repeat split; by vm_compute. Qed.

(** C8 (amended): with nothing selected, [downloadSelected] sends no
    request and parks no continuation, and changes nothing but the log:
    when the page has the log container, the error entry
    "请先选择要下载的文章" becomes its last entry (the oldest entry being
    dropped when 100 or more were there); when it has none, nothing
    changes at all. *)
Theorem empty_selection_guard (w : World) :
  selection w = [] →
  let w' := step w (Do DownloadSelected) in
  let e := mkLogEntry "log-entry text-danger" "请先选择要下载的文章" in
  browser w' = browser w
  ∧ net (browser w') = net (browser w)
  ∧ inflight (browser w') = inflight (browser w)
  ∧ app w' = app w
  ∧ taskManager w' = taskManager w
  ∧ logContainer (document w')
    = (λ logs, (if bool_decide (100 ≤ length logs) then drop 1 logs else logs)
               ++ [e]) <$> logContainer (document w)
  ∧ document w' = set_log (logContainer (document w')) (document w)
  ∧ (logContainer (document w) = None → w' = w).
Proof.
  intros Hsel. simpl. unfold downloadSelected.
  unfold selection in Hsel. rewrite Hsel. simpl.
  rewrite addLog_browser, addLog_app, addLog_taskManager, addLog_log_as_list.
  repeat (split; [done |]). split.
  - rewrite addLog_document.
    destruct (logContainer (document w)); [simpl; by rewrite append_as_list | done].
  - apply addLog_without_container.
Qed.

Lemma empty_selection_guard_witness :
  let w := initial (Some 4%Z) in
  selection w = []
  ∧ net (browser (step w (Do DownloadSelected))) = []
  ∧ logContainer (document (step w (Do DownloadSelected)))
    = Some [mkLogEntry "log-entry text-danger" "请先选择要下载的文章"].
Proof.
  intros w. split; [done |].
  pose proof (empty_selection_guard w eq_refl) as (_ & Hnet & _ & _ & _ & Hlog & _).
  exact (conj Hnet Hlog).
Defined.

Lemma step_load_keeps_selection e w :
  is_load e → selection (step w e) = selection w.
Proof.
  destruct e as [a|id|k o]; [destruct a; simpl; done | done |].
  destruct k; simpl; try done; intros _; case_bool_decide; try done.
  - change (selection (loadArticles_k o (unpark KLoadArticles w)) = selection w).
    by rewrite selection_loadArticles_k.
  - change (selection (loadLiteratureStats_k o (unpark KLiteratureStats w))
            = selection w).
    by rewrite selection_loadLiteratureStats_k.
Qed.

(** C9: no sequence of article-page loads (calls with any page and
    filters, replies of any outcome, replies of the statistics request
    they trigger) changes the selection; in particular, selecting 3 and 7
    on page 1, loading page 2 and coming back to page 1 with the same
    filter leaves 3 and 7 selected. *)
Theorem loads_keep_selection (es : list event) (w : World) :
  Forall is_load es →
  selection (run es w) = selection w
  ∧ selection
      (run [Do (LoadArticles 1 "" "F" ""); Settle KLoadArticles (Success (sample_page 1));
            Do (ToggleSelection 3); Do (ToggleSelection 7);
            Do (LoadArticles 2 "" "F" ""); Settle KLoadArticles (Success (sample_page 2));
            Do (LoadArticles 1 "" "F" ""); Settle KLoadArticles (Success (sample_page 1))]
         (initial None))
    = [3; 7]%Z.
Proof.
  intros Hes. split; [| by vm_compute].
  revert w. induction Hes as [|e es He _ IH]; intros w; [done |].
  unfold run in *. simpl. by rewrite IH, step_load_keeps_selection.
Qed.

Lemma loads_keep_selection_witness :
  let w := run [Do (LoadArticles 1 "" "F" ""); Settle KLoadArticles (Success (sample_page 1));
                Do (ToggleSelection 3); Do (ToggleSelection 7)] (initial None) in
  let es := [Do (LoadArticles 2 "" "F" ""); Settle KLoadArticles (Success (sample_page 2));
             Settle KLiteratureStats (Failure "busy");
             Do (LoadArticles 1 "" "F" ""); Settle KLoadArticles (Rejected "offline")] in
  Forall is_load es ∧ selection (run es w) = [3; 7]%Z.
Proof.
  intros w es.
  assert (Forall is_load es) as H by (repeat constructor).
  split; [exact H |].
  exact (eq_trans (proj1 (loads_keep_selection es w H)) eq_refl).
Defined.

End Dispatch.

(* ===================================================================== *)
(** ** Single download against bulk download *)
(* ===================================================================== *)

Section SingleVsBulk.
Import ArticleManager Loop Props.

(** C5, as the specification words it, fails: with article 7 alone
    selected and one worker, a successful bulk dispatch ends with the
    selection empty, a successful single download with 7 still selected
    (and the two log a different message), so the final states differ. *)
Lemma single_differs_from_bulk_on_success :
  let w := run [Do (ToggleSelection 7)] (initial (Some 1%Z)) in
  let bulk := run [Do DownloadSelected; Settle (KDownloadSelected [7]%Z) (Success ())] w in
  let single := run [Do (DownloadSingle 7); Settle KDownloadSingle (Success ())] w in
  selection w = [7]%Z ∧ maxWorkers (document w) = Some 1%Z
  ∧ selection bulk = [] ∧ selection single = [7]%Z
  ∧ logContainer (document bulk) ≠ logContainer (document single)
  ∧ bulk ≠ single.
Proof.
  repeat split; by vm_compute.
Qed.

(** C5 (amended): with exactly [id] selected and one worker,
    [downloadSingle id] and [downloadSelected] send the same request and
    change nothing else while sending; on an error envelope and on a
    transport error their continuations leave the same state.  On success
    both put one info entry last in the log (when there is a log) and ask
    for the download-task list, but they differ: the bulk path logs
    another text, empties the selection, redraws every card of the loaded
    page as unselected and clicks the download tab once, while the single
    path leaves the selection, the cards and the tab as they were. *)
Theorem single_agrees_with_bulk_up_to_success (id : Z) (w : World) :
  selection w = [id] →
  maxWorkers (document w) = Some 1%Z →
  let sent := PostArticlesDownload [id] (Some 1%Z) in
  let last_entry (e : LogEntry) (old : option (list LogEntry)) :=
    (λ logs, (if bool_decide (100 ≤ length logs) then drop 1 logs else logs)
             ++ [e]) <$> old in
  (net (browser (downloadSelected w)) = net (browser w) ++ [sent]
   ∧ net (browser (downloadSingle id w)) = net (browser w) ++ [sent])
  ∧ (app (downloadSelected w) = app (downloadSingle id w)
     ∧ document (downloadSelected w) = document (downloadSingle id w)
     ∧ taskManager (downloadSelected w) = taskManager (downloadSingle id w))
  ∧ (∀ e w', downloadSelected_k [id] (Failure e) w' = downloadSingle_k (Failure e) w')
  ∧ (∀ m w', downloadSelected_k [id] (Rejected m) w' = downloadSingle_k (Rejected m) w')
  ∧ (∀ w',
       let bulk := downloadSelected_k [id] (Success ()) w' in
       let single := downloadSingle_k (Success ()) w' in
       (logContainer (document bulk)
        = last_entry (mkLogEntry "log-entry text-info" "已启动下载任务，共 1 篇文章")
            (logContainer (document w'))
        ∧ logContainer (document single)
          = last_entry (mkLogEntry "log-entry text-info" "已启动单篇文章下载")
              (logContainer (document w')))
       ∧ (net (browser bulk) = net (browser w') ++ [GetDownloadTasks]
          ∧ net (browser single) = net (browser w') ++ [GetDownloadTasks])
       ∧ (selection bulk = []
          ∧ selection single = selection w')
       ∧ (articlesList (document bulk)
          = (λ a, mkCard (article_id a) false) <$> currentArticles (app w')
          ∧ articlesList (document single) = articlesList (document w'))
       ∧ (downloadTabClicks (document bulk) = S (downloadTabClicks (document w'))
          ∧ downloadTabClicks (document single) = downloadTabClicks (document w'))
       ∧ (selectionToolbar (document bulk)
          = match currentArticles (app w') with
            | [] => selectionToolbar (document w')
            | _ :: _ => false
            end
          ∧ selectionToolbar (document single) = selectionToolbar (document w'))).
Proof.
  intros Hsel Hworkers sent last_entry.
  assert (selection w ≠ []) as Hne by (rewrite Hsel; done).
  rewrite (downloadSelected_sends w Hne), Hsel, Hworkers.
  split; [done |]. split; [done |]. split; [done |]. split; [done |].
  intros w' bulk single.
  set (logged := addLog "info" "已启动下载任务，共 1 篇文章" w').
  assert (bulk
          = with_document (λ d, set_downloadTabClicks (S (downloadTabClicks d)) d)
              (DownloadManager.loadTasks (clearSelection logged))) as Hbulk
    by reflexivity.
  assert (single
          = DownloadManager.loadTasks (addLog "info" "已启动单篇文章下载" w'))
    as Hsingle by reflexivity.
  assert (document logged
          = set_log (logContainer (document logged)) (document w')) as Hdoc.
  { unfold logged. rewrite addLog_document.
    by destruct (logContainer (document w')). }
  assert (app logged = app w') as Happ by apply addLog_app.
  assert (document (addLog "info" "已启动单篇文章下载" w')
          = set_log (logContainer (document (addLog "info" "已启动单篇文章下载" w')))
              (document w')) as Hdoc1.
  { rewrite addLog_document. by destruct (logContainer (document w')). }
  split; [split |]; [| | split; [split |]; [| | split; [split |];
    [| | split; [split |]; [| | split; [split |]; [| | split]]]]].
  - rewrite Hbulk.
    transitivity (logContainer (document (clearSelection logged))); [reflexivity |].
    unfold clearSelection. rewrite displayArticles_log.
    apply (addLog_log_as_list "info" "已启动下载任务，共 1 篇文章").
  - rewrite Hsingle. apply (addLog_log_as_list "info" "已启动单篇文章下载").
  - rewrite Hbulk.
    transitivity (net (browser (clearSelection logged)) ++ [GetDownloadTasks]);
      [reflexivity |].
    unfold clearSelection. rewrite displayArticles_browser. simpl.
    unfold logged. by rewrite addLog_browser.
  - rewrite Hsingle. simpl. by rewrite addLog_browser.
  - apply (selection_downloadSelected_k [id] (Success ()) w').
  - rewrite Hsingle. apply (selection_addLog "info" "已启动单篇文章下载" w').
  - rewrite Hbulk.
    transitivity (articlesList (document (clearSelection logged))); [reflexivity |].
    unfold clearSelection. cbv zeta. cbn [app with_app currentArticles set_selectedArticles].
    rewrite Happ.
    destruct (currentArticles (app w')) as [|a l]; [reflexivity |].
    rewrite displayArticles_nonempty. cbn. reflexivity.
  - rewrite Hsingle. cbn. by rewrite Hdoc1.
  - rewrite Hbulk. cbn. f_equal.
    unfold clearSelection. cbv zeta. cbn [app with_app currentArticles set_selectedArticles].
    destruct (currentArticles (app logged)) as [|a l];
      [cbn; by rewrite Hdoc | rewrite displayArticles_nonempty; cbn; by rewrite Hdoc].
  - rewrite Hsingle. cbn. by rewrite Hdoc1.
  - rewrite Hbulk.
    transitivity (selectionToolbar (document (clearSelection logged)));
      [reflexivity |].
    rewrite (clearSelection_toolbar logged), Happ.
    destruct (currentArticles (app w')); [by rewrite Hdoc | done].
  - rewrite Hsingle. cbn. by rewrite Hdoc1.
Qed.

Lemma single_agrees_with_bulk_witness :
  let w := run [Do (ToggleSelection 7)] (initial (Some 1%Z)) in
  selection w = [7]%Z ∧ maxWorkers (document w) = Some 1%Z
  ∧ net (browser (downloadSelected w)) = net (browser (downloadSingle 7 w)).
Proof.
  intros w. split; [by vm_compute |]. split; [by vm_compute |].
  pose proof (single_agrees_with_bulk_up_to_success 7 w eq_refl eq_refl)
    as ((H1 & H2) & _).
  exact (eq_trans H1 (eq_sym H2)).
Defined.

End SingleVsBulk.

(* ===================================================================== *)
(** ** Failures and the event log *)
(* ===================================================================== *)

Section Failures.
Import ArticleManager Loop Props.




End Failures.

(* ===================================================================== *)
(** ** Polling *)
(* ===================================================================== *)

Section Polling.
Import TaskManager Loop Props.

Lemma loadTasks_k_tasks o w :
  tasks (taskManager (loadTasks_k o w))
  = match o with Success ts => ts | _ => tasks (taskManager w) end.
Proof. destruct o; simpl; by rewrite ?addLog_taskManager. Qed.

Lemma loadTasks_k_counters o w :
  counters (document (loadTasks_k o w))
  = match o with Success ts => counters_of ts | _ => counters (document w) end.
Proof.
  destruct o as [ts|e|m].
  - unfold loadTasks_k. by rewrite updateTaskStats_counters.
  - apply addLog_tasks_view.
  - apply addLog_tasks_view.
Qed.

Lemma loadTasks_k_tasksList o w :
  tasksList (document (loadTasks_k o w))
  = match o with Success ts => ts | _ => tasksList (document w) end.
Proof. destruct o; simpl; [done | apply addLog_tasks_view ..]. Qed.

Lemma loadTasks_k_timer o w :
  refreshInterval (taskManager (loadTasks_k o w)) = refreshInterval (taskManager w)
  ∧ timers (browser (loadTasks_k o w)) = timers (browser w).
Proof. destruct o; simpl; by rewrite ?addLog_taskManager, ?addLog_browser. Qed.

Lemma stopAutoRefresh_timer w :
  refreshInterval (taskManager (stopAutoRefresh w)) = None
  ∧ timers (browser (stopAutoRefresh w))
    = match refreshInterval (taskManager w) with
      | Some id => filter (λ t, t ≠ id) (timers (browser w))
      | None => timers (browser w)
      end.
Proof.
  unfold stopAutoRefresh.
  by destruct (refreshInterval (taskManager w)) eqn:H.
Qed.

Lemma stopAutoRefresh_frame w :
  tasks (taskManager (stopAutoRefresh w)) = tasks (taskManager w)
  ∧ document (stopAutoRefresh w) = document w
  ∧ inflight (browser (stopAutoRefresh w)) = inflight (browser w)
  ∧ net (browser (stopAutoRefresh w)) = net (browser w).
Proof.
  unfold stopAutoRefresh. by destruct (refreshInterval (taskManager w)).
Qed.

Lemma startAutoRefresh_frame w :
  tasks (taskManager (startAutoRefresh w)) = tasks (taskManager w)
  ∧ document (startAutoRefresh w) = document w
  ∧ inflight (browser (startAutoRefresh w)) = inflight (browser w).
Proof.
  unfold startAutoRefresh. by destruct (refreshInterval (taskManager w)).
Qed.

(** C2, as the specification words it, fails: the tasks tab is shown
    and its first poll answered with no tasks; the timer fires and a
    second poll leaves; the tab is hidden, which stops the timer; the
    late reply to the second poll still replaces the task list and the
    counters. *)
Lemma late_poll_applied_after_stop :
  let late := [mkTask 8 "download" "running" false] in
  let w := run [Do TasksTabShown; Settle KLoadTasks (Success []); Tick 1] (initial None) in
  let w' := run [Do TasksTabHidden; Settle KLoadTasks (Success late)] w in
  inflight (browser w) = [KLoadTasks]
  ∧ tasks (taskManager w) = []
  ∧ counters (document w) = mkCounters 0 0 0 0
  ∧ refreshInterval (taskManager w') = None
  ∧ timers (browser w') = []
  ∧ tasks (taskManager w') = late
  ∧ counters (document w') = mkCounters 1 0 0 0
  ∧ tasks (taskManager w') ≠ tasks (taskManager w).
Proof. repeat split; by vm_compute. Qed.

(** C2 (amended): stopping the refresh clears the interval, so that
    timer starts no further poll, but there is no generation guard: the
    reply to a poll already in flight is applied when it arrives.  On
    success the task list, the rendered list and the counters become
    those of the reply; on an error envelope or a transport error they
    stay as they were.  The same happens when the tab is shown again
    (a new poll and a new timer) before the old reply arrives. *)
Theorem late_poll_after_stop (w : World) (o : outcome (list Task)) :
  KLoadTasks ∈ inflight (browser w) →
  let applied (w' : World) :=
    tasks (taskManager w')
    = match o with Success ts => ts | _ => tasks (taskManager w) end
    ∧ tasksList (document w')
      = match o with Success ts => ts | _ => tasksList (document w) end
    ∧ counters (document w')
      = match o with Success ts => counters_of ts | _ => counters (document w) end in
  let stopped := run [Do TasksTabHidden; Settle KLoadTasks o] w in
  let restarted := run [Do TasksTabShown; Settle KLoadTasks o] w in
  applied stopped
  ∧ refreshInterval (taskManager stopped) = None
  ∧ timers (browser stopped)
    = match refreshInterval (taskManager w) with
      | Some id => filter (λ t, t ≠ id) (timers (browser w))
      | None => timers (browser w)
      end
  ∧ applied restarted.
Proof.
  intros Hin applied stopped restarted.
  destruct (stopAutoRefresh_frame w) as (Hts & Hdoc & Hfl & _).
  destruct (stopAutoRefresh_timer w) as (Hri & Htm).
  assert (stopped = loadTasks_k o (unpark KLoadTasks (stopAutoRefresh w))) as ->.
  { unfold stopped. rewrite !run_cons.
    change (step w (Do TasksTabHidden)) with (stopAutoRefresh w).
    rewrite step_settle by (by rewrite Hfl). done. }
  destruct (startAutoRefresh_frame (loadTasks w)) as (Hts' & Hdoc' & Hfl').
  assert (restarted
          = loadTasks_k o (unpark KLoadTasks (startAutoRefresh (loadTasks w)))) as ->.
  { unfold restarted. rewrite !run_cons.
    change (step w (Do TasksTabShown)) with (startAutoRefresh (loadTasks w)).
    rewrite step_settle; [done |].
    rewrite Hfl'. simpl. set_solver. }
  unfold applied.
  rewrite !loadTasks_k_tasks, !loadTasks_k_tasksList, !loadTasks_k_counters.
  destruct (loadTasks_k_timer o (unpark KLoadTasks (stopAutoRefresh w))) as (-> & ->).
  rewrite !unpark_taskManager, !unpark_document, unpark_timers.
  rewrite Hts, Hdoc, Hri, Htm, Hts', Hdoc'.
  by destruct o.
Qed.

Lemma late_poll_after_stop_witness :
  let late := [mkTask 8 "download" "running" false] in
  let w := run [Do TasksTabShown; Settle KLoadTasks (Success []); Tick 1] (initial None) in
  KLoadTasks ∈ inflight (browser w)
  ∧ tasks (taskManager (run [Do TasksTabHidden; Settle KLoadTasks (Success late)] w))
    = late.
Proof.
  intros late w.
  assert (KLoadTasks ∈ inflight (browser w)) as H
    by (apply (bool_decide_unpack _); by vm_compute).
  split; [exact H |].
  exact (proj1 (proj1 (late_poll_after_stop w (Success late) H))).
Defined.

(** C7, as the specification words it, fails on a page that has no log
    container: a poll cut by a transport error is then not logged at all;
    the world is what it was. *)
Lemma failed_poll_silent_without_log :
  let w := with_document (set_log None)
             (run [Do TasksTabShown; Settle KLoadTasks (Success []); Tick 1]
                (initial None)) in
  inflight (browser w) = [KLoadTasks]
  ∧ logContainer (document w) = None
  ∧ resume KLoadTasks (Rejected "Failed to fetch") w = w
  ∧ logContainer (document (run [Settle KLoadTasks (Rejected "Failed to fetch")] w))
    = None.
Proof. repeat split; by vm_compute. Qed.

(** C7 (amended): a poll cut by a transport error leaves the task list,
    what is rendered of it and the counters as they were, and leaves the
    interval alone, so its next tick sends a new poll.  When the page has
    the log container the failure is logged: the error entry "网络错误: "
    followed by the transport's message becomes the last entry (the
    oldest entry being dropped when 100 or more were there); when it has
    none, nothing is logged and nothing changes at all. *)
Theorem failed_poll_keeps_snapshot (w : World) (m : string) :
  let w' := resume KLoadTasks (Rejected m) w in
  let e := mkLogEntry "log-entry text-danger" ("网络错误: " +:+ m) in
  logContainer (document w')
  = (λ logs, (if bool_decide (100 ≤ length logs) then drop 1 logs else logs)
             ++ [e]) <$> logContainer (document w)
  ∧ (logContainer (document w) = None → w' = w)
  ∧ taskManager w' = taskManager w
  ∧ tasksList (document w') = tasksList (document w)
  ∧ counters (document w') = counters (document w)
  ∧ browser w' = browser w
  ∧ ∀ id, id ∈ timers (browser w) → autoRefreshEnabled (taskManager w) = true →
      net (browser (step w' (Tick id))) = net (browser w) ++ [GetTasks]
      ∧ KLoadTasks ∈ inflight (browser (step w' (Tick id)))
      ∧ tasks (taskManager (step w' (Tick id))) = tasks (taskManager w).
Proof.
  intros w' e. unfold w'. cbn [resume loadTasks_k].
  rewrite addLog_taskManager, addLog_browser.
  destruct (addLog_tasks_view "error" ("网络错误: " +:+ m) w) as (-> & ->).
  split; [apply (addLog_log_as_list "error" ("网络错误: " +:+ m)) |].
  split; [apply addLog_without_container |].
  repeat (split; [done |]).
  intros id Hid Hon. cbn [step].
  rewrite addLog_browser, bool_decide_eq_true_2 by done.
  unfold refresh_callback. rewrite addLog_taskManager, Hon.
  simpl. rewrite addLog_browser, addLog_taskManager.
  split; [done |]. split; [set_solver | done].
Qed.

Lemma failed_poll_keeps_snapshot_witness :
  let snapshot := [mkTask 8 "download" "running" false] in
  let w := run [Do TasksTabShown; Settle KLoadTasks (Success snapshot); Tick 1]
             (initial None) in
  let w' := run [Settle KLoadTasks (Rejected "Failed to fetch")] w in
  (1%positive ∈ timers (browser w))
  ∧ autoRefreshEnabled (taskManager w) = true
  ∧ tasks (taskManager w') = snapshot
  ∧ logContainer (document w')
    = Some [mkLogEntry "log-entry text-danger" "网络错误: Failed to fetch"]
  ∧ net (browser (step w' (Tick 1))) = [GetTasks; GetTasks; GetTasks].
Proof.
  intros snapshot w w'.
  assert (1%positive ∈ timers (browser w)) as Hlive
    by (apply (bool_decide_unpack _); by vm_compute).
  assert (autoRefreshEnabled (taskManager w) = true) as Hon by reflexivity.
  pose proof (failed_poll_keeps_snapshot w "Failed to fetch")
    as (Hlog & _ & Htm & _ & _ & _ & Htick).
  split; [exact Hlive |]. split; [exact Hon |].
  split; [exact (f_equal tasks Htm) |]. split; [exact Hlog |].
  exact (proj1 (Htick 1%positive Hlive Hon)).
Defined.

End Polling.

(* ===================================================================== *)
(** ** Page count and page window; task counters; file listings *)
(* ===================================================================== *)

Section Views.
Import ArticleManager TaskManager ResourceManager Loop Props.

(** C6: after a successful page load (the reply's [per_page] being
    positive), [totalPages] is the ceiling of [total / per_page]; the
    page indices shown are in ascending order, at most five, and exactly
    the pages within two of the current one that lie in
    [1, totalPages] (none when there is a single page or no pagination
    element).  With total 95, ten per page and page 5 there are 10 pages
    and the window is 3, 4, 5, 6, 7. *)
Theorem pagination_after_load (w : World) (result : ArticlesPage) :
  (0 < r_per_page result)%Z →
  let w' := loadArticles_k (Success result) w in
  let tp := totalPages (app w') in
  let p := currentPage (app w') in
  (tp = ceil_div (r_total result) (r_per_page result)
   ∧ r_per_page result * (tp - 1) < r_total result ≤ r_per_page result * tp)%Z
  ∧ p = r_page result
  ∧ length (visibleWindow w') ≤ 5
  ∧ StronglySorted Z.lt (visibleWindow w')
  ∧ (∀ i, i ∈ visibleWindow w'
          ↔ is_Some (pagination (document w)) ∧ (1 < tp)%Z
            ∧ (p - 2 ≤ i ≤ p + 2)%Z ∧ (1 ≤ i ≤ tp)%Z)
  ∧ (∀ articles,
       let w5 := loadArticles_k (Success (mkArticlesPage articles 5 10 95)) w in
       totalPages (app w5) = 10%Z
       ∧ visibleWindow w5
         = match pagination (document w) with
           | Some _ => [3; 4; 5; 6; 7]%Z
           | None => []
           end).
Proof.
  intros Hpp w' tp p.
  assert (tp = ceil_div (r_total result) (r_per_page result)) as Htp
    by (unfold tp, w'; by rewrite loadArticles_k_app).
  assert (p = r_page result) as Hp
    by (unfold p, w'; by rewrite loadArticles_k_app).
  pose proof (visibleWindow_loadArticles_k result w) as Hwin.
  cbv zeta in Hwin. fold w' in Hwin. rewrite <- Htp, <- Hp in Hwin.
  split; [split; [done | rewrite Htp; by apply ceil_div_bounds] |].
  split; [done |].
  split; [| split; [| split]].
  - rewrite Hwin. destruct (pagination (document w)); [| simpl; lia].
    case_bool_decide; [simpl; lia |]. rewrite length_seqZ. lia.
  - rewrite Hwin. destruct (pagination (document w)); [| constructor].
    case_bool_decide; [constructor | apply seqZ_ascending_Z].
  - intros i. rewrite Hwin. destruct (pagination (document w)) as [items|].
    + case_bool_decide.
      * split; [by intros ?%elem_of_nil | lia].
      * rewrite elem_of_seqZ. split; [| lia]. intros. split; [by eexists | lia].
    + split; [by intros ?%elem_of_nil | by intros [[? ?] _]].
  - intros articles w5. split.
    + unfold w5. by rewrite loadArticles_k_app.
    + unfold w5. rewrite visibleWindow_loadArticles_k.
      by destruct (pagination (document w)).
Qed.

Lemma pagination_after_load_witness :
  let w' := loadArticles_k (Success (sample_page 5)) (initial None) in
  (0 < r_per_page (sample_page 5))%Z
  ∧ (10 * (totalPages (app w') - 1) < 95 ≤ 10 * totalPages (app w'))%Z
  ∧ length (visibleWindow w') ≤ 5.
Proof.
  intros w'.
  assert (0 < r_per_page (sample_page 5))%Z as H by (simpl; lia).
  split; [exact H |].
  pose proof (pagination_after_load (initial None) (sample_page 5) H)
    as ((_ & Hceil) & _ & Hlen & _).
  exact (conj Hceil Hlen).
Defined.

(** C3, as the specification words it, fails: for a collection holding
    one pending task the aggregate has no entry for "pending" at all,
    although one task bears that status. *)
Lemma pending_tasks_not_counted :
  let ts := [mkTask 1 "keyword_search" "pending" false] in
  count_status "pending" ts = 1
  ∧ taskStats ts !! "pending" = None
  ∧ taskStats ts = stats0
  ∧ ¬ (∀ s, taskStats ts !! s = Some (count_status s ts)).
Proof.
  repeat split; try by vm_compute.
  intros H. specialize (H "pending"). by vm_compute in H.
Qed.

(** C3 (amended): the aggregate built by [updateTaskStats] is keyed by
    the four statuses running, paused, completed and failed only; for
    each of them the count, and the counter shown, is the exact number
    of tasks now bearing that status; tasks with any other status
    (pending among them) are not counted.  For the statuses running,
    running, paused, completed, failed, completed the aggregate is
    running 2, paused 1, completed 2, failed 1. *)
Theorem aggregate_counts_tracked_statuses (ts : list Task) (s : string) (w : World) :
  taskStats ts !! s
  = (if bool_decide (s ∈ tracked) then Some (count_status s ts) else None)
  ∧ counters (document (updateTaskStats w)) = counters_of (tasks (taskManager w))
  ∧ (∀ id ty cr,
       taskStats (mkTask id ty "running" cr :: mkTask id ty "running" cr
                  :: mkTask id ty "paused" cr :: mkTask id ty "completed" cr
                  :: mkTask id ty "failed" cr :: mkTask id ty "completed" cr :: [])
       = {[ "running" := 2; "paused" := 1; "completed" := 2; "failed" := 1 ]}).
Proof.
  split; [apply taskStats_lookup |].
  split; [apply updateTaskStats_counters |].
  intros id ty cr. by vm_compute.
Qed.

(** C10: a non-empty listing is rendered as one row per file, each row
    carrying the name, path, time and size of its file, and the rows
    follow the files in descending order of modification time, whatever
    order the server sent them in; files with equal times keep the
    server's relative order. *)
Theorem file_list_newest_first (files : list File) (o : Options) :
  files ≠ [] →
  ∃ ordered rows,
    renderFileList files o = ListGroup rows
    ∧ ordered ≡ₚ files
    ∧ StronglySorted not_older ordered
    ∧ Forall2 (λ row file,
                 item_name row = name file ∧ item_path row = path file
                 ∧ item_modified row = modified file ∧ item_size row = size file
                 ∧ item_icon row = icon o) rows ordered
    ∧ rows ≡ₚ render_item o <$> files
    ∧ StronglySorted newer_first rows
    ∧ (∀ i j a b, i < j → ordered !! i = Some a → ordered !! j = Some b →
                  (modified b ≤ modified a)%Z)
    ∧ (StronglySorted not_older files →
       ordered = files ∧ rows = render_item o <$> files).
Proof.
  intros Hne. destruct files as [|f files]; [done |].
  exists (sort by_modified (f :: files)),
         (render_item o <$> sort by_modified (f :: files)).
  pose proof (sort_by_modified (f :: files)) as Hsorted.
  split; [reflexivity |]. split; [apply sort_perm |]. split; [exact Hsorted |].
  split; [| split; [| split; [| split]]].
  - apply Forall2_fmap_l, Forall_Forall2_diag, Forall_forall. done.
  - by rewrite sort_perm.
  - eapply StronglySorted_fmap; [| exact Hsorted]. done.
  - intros i j a b Hij Ha Hb.
    revert i j a b Hij Ha Hb.
    induction Hsorted as [|x l Hl IH Hx]; intros i j a b Hij Ha Hb; [done |].
    destruct j as [|j]; [lia |]. destruct i as [|i].
    + injection Ha as <-. cbn in Hb.
      apply list_elem_of_lookup_2 in Hb.
      by apply (proj1 (Forall_forall _ _) Hx).
    + cbn in Ha, Hb. apply (IH i j); [lia | done | done].
  - intros Hfiles. by rewrite sort_sorted.
Qed.

Lemma file_list_newest_first_witness :
  let files := [mkFile "a.csv" "/exports/a.csv" 2048 100 "";
                mkFile "b.csv" "/exports/b.csv" 1024 300 "";
                mkFile "c.csv" "/exports/c.csv" 4096 200 ""] in
  files ≠ []
  ∧ ∃ ordered rows,
      renderFileList files exports_options = ListGroup rows
      ∧ StronglySorted not_older ordered
      ∧ Forall2 (λ row file, item_name row = name file
                             ∧ item_modified row = modified file) rows ordered.
Proof.
  intros files.
  assert (files ≠ []) as H by discriminate.
  split; [exact H |].
  destruct (file_list_newest_first files exports_options H)
    as (ordered & rows & Hrender & _ & Hsorted & Hrows & _).
  exists ordered, rows. split; [exact Hrender |]. split; [exact Hsorted |].
  eapply Forall2_impl; [exact Hrows |]. intros row file (Hn & _ & Hm & _).
  exact (conj Hn Hm).
Defined.

End Views.

(* ===================================================================== *)
(** ** Further properties: the event log *)
(* ===================================================================== *)

Section LogCapacity.
Import ArticleManager TaskManager Loop Props Invariants.

Lemma length_append e logs :
  length logs ≤ 100 → length (append e logs) ≤ 100.
Proof.
  intros H. unfold append. case_bool_decide as Hlen.
  - rewrite length_drop, length_app. simpl. lia.
  - lia.
Qed.

Lemma log_bounded_addLog level text w :
  log_bounded w → log_bounded (addLog level text w).
Proof.
  intros Hb logs. rewrite addLog_document. simpl.
  destruct (logContainer (document w)) as [old|] eqn:Hold; [| done].
  intros [= <-]. apply length_append. by apply Hb.
Qed.

(** Where the log of a world comes from decides whether it is bounded. *)
Lemma log_bounded_same w w' :
  logContainer (document w') = logContainer (document w) →
  log_bounded w → log_bounded w'.
Proof. unfold log_bounded. intros ->. done. Qed.

Lemma updatePagination_log w :
  logContainer (document (updatePagination w)) = logContainer (document w).
Proof.
  unfold updatePagination. destruct (pagination (document w)); [| done].
  by case_bool_decide.
Qed.

Lemma updateSelectionToolbar_log w :
  logContainer (document (updateSelectionToolbar w)) = logContainer (document w).
Proof. unfold updateSelectionToolbar. by case_bool_decide. Qed.

Lemma stopAutoRefresh_log w :
  logContainer (document (stopAutoRefresh w)) = logContainer (document w).
Proof. by rewrite (proj1 (proj2 (stopAutoRefresh_frame w))). Qed.

Lemma startAutoRefresh_log w :
  logContainer (document (startAutoRefresh w)) = logContainer (document w).
Proof. by rewrite (proj1 (proj2 (startAutoRefresh_frame w))). Qed.

(** Rewriting a projection of a composed operation down to the world it
    started from. *)
Ltac to_start :=
  repeat (progress
            (rewrite ?updateSelectionToolbar_log, ?displayArticles_log,
               ?updatePagination_log, ?startAutoRefresh_log, ?stopAutoRefresh_log;
             simpl)).

Lemma perform_log a w :
  logContainer (document (perform a w)) = logContainer (document w)
  ∨ ∃ level text, perform a w = addLog level text w.
Proof.
  destruct a; cbn [perform];
    try (left; unfold toggleSelection, selectAll, clearSelection,
           on_tab_shown, on_tab_hidden; by to_start).
  unfold downloadSelected. case_bool_decide; [right; eauto | by left].
Qed.

Lemma perform_log_bounded a w : log_bounded w → log_bounded (perform a w).
Proof.
  intros Hb. destruct (perform_log a w) as [Hsame|(level & text & ->)].
  - by eapply log_bounded_same.
  - by apply log_bounded_addLog.
Qed.

Lemma resume_log k o w :
  logContainer (document (resume k o w)) = logContainer (document w)
  ∨ ∃ level text,
      logContainer (document (resume k o w))
      = logContainer (document (addLog level text w)).
Proof.
  destruct k; destruct o as [x|e|m];
    try (right; do 2 eexists; reflexivity);
    try (left; reflexivity).
  - left. cbv beta iota zeta delta [resume loadArticles_k]. by to_start.
  - right. do 2 eexists. cbv beta iota zeta delta [resume downloadSelected_k].
    unfold clearSelection. by to_start.
  - left. by destruct x.
Qed.

Lemma resume_log_bounded k o w : log_bounded w → log_bounded (resume k o w).
Proof.
  intros Hb. destruct (resume_log k o w) as [Hsame|(level & text & Hsame)].
  - by eapply log_bounded_same.
  - eapply log_bounded_same; [exact Hsame |]. by apply log_bounded_addLog.
Qed.

Lemma step_log_bounded w e : log_bounded w → log_bounded (step w e).
Proof.
  intros Hb. destruct e as [a|id|k o]; simpl.
  - by apply perform_log_bounded.
  - case_bool_decide; [| done]. unfold refresh_callback.
    destruct (autoRefreshEnabled (taskManager w)); [| done].
    by eapply log_bounded_same.
  - case_bool_decide; [| done]. apply resume_log_bounded.
    by eapply log_bounded_same.
Qed.

(** A property kept by every step is kept by every run. *)
Lemma run_invariant (I : World → Prop) :
  (∀ w e, I w → I (step w e)) → ∀ es w, I w → I (run es w).
Proof.
  intros Hstep es. induction es as [|e es IH]; intros w Hw; [done |].
  rewrite run_cons. apply IH. by apply Hstep.
Qed.

(** X1: once the log holds at most 100 entries it never holds more,
    whatever the user does, whichever timers fire and whatever replies
    arrive. *)
Theorem log_never_exceeds_capacity (es : list event) (w : World) :
  log_bounded w → log_bounded (run es w).
Proof. apply run_invariant. intros; by apply step_log_bounded. Qed.

Lemma log_never_exceeds_capacity_witness :
  let es := [Do DownloadSelected; Do TasksTabShown;
             Settle KLoadTasks (Rejected "Failed to fetch")] in
  log_bounded (initial None) ∧ log_bounded (run es (initial None)).
Proof.
  intros es.
  assert (log_bounded (initial None)) as H
    by (intros logs [= <-]; simpl; lia).
  exact (conj H (log_never_exceeds_capacity es (initial None) H)).
Defined.

(** X2: [addLog] puts the new entry last and keeps the others in order;
    below 100 entries nothing is dropped, at exactly 100 the oldest entry
    alone is dropped; without a log container nothing changes at all. *)
Theorem addLog_evicts_oldest (level text : string) (w : World) (logs : list LogEntry) :
  length logs ≤ 100 →
  logContainer (document w) = Some logs →
  logContainer (document (addLog level text w))
  = Some ((if bool_decide (length logs = 100) then drop 1 logs else logs)
          ++ [entry level text])
  ∧ (∀ w0, logContainer (document w0) = None → addLog level text w0 = w0).
Proof.
  intros Hlen Hlogs. split.
  - rewrite (addLog_present _ _ _ _ Hlogs). f_equal. unfold append.
    rewrite length_app. simpl.
    case_bool_decide; case_bool_decide; try lia; [| done].
    destruct logs; [simpl in *; lia | done].
  - intros w0 H0. unfold addLog. by rewrite H0.
Qed.

Lemma addLog_evicts_oldest_witness :
  let w := addLog "info" "first" (initial None) in
  length [entry "info" "first"] ≤ 100
  ∧ logContainer (document w) = Some [entry "info" "first"]
  ∧ logContainer (document (addLog "error" "second" w))
    = Some [entry "info" "first"; entry "error" "second"].
Proof.
  intros w.
  assert (length [entry "info" "first"] ≤ 100) as Hlen by (simpl; lia).
  split; [exact Hlen |]. split; [reflexivity |].
  exact (proj1 (addLog_evicts_oldest "error" "second" w
                  [entry "info" "first"] Hlen eq_refl)).
Defined.

End LogCapacity.

(* ===================================================================== *)
(** ** Further properties: the selection *)
(* ===================================================================== *)

Section SelectionSet.
Import ArticleManager TaskManager Loop Props Invariants.

Lemma elem_of_add (s : list Z) (x y : Z) : x ∈ add s y ↔ x ∈ s ∨ x = y.
Proof.
  unfold add, has. case_bool_decide; [set_solver |].
  rewrite elem_of_app, list_elem_of_singleton. done.
Qed.

Lemma NoDup_add (s : list Z) (y : Z) : NoDup s → NoDup (add s y).
Proof.
  intros Hs. unfold add, has. case_bool_decide; [done |].
  apply NoDup_app. split; [done |]. split; [set_solver | apply NoDup_singleton].
Qed.

Lemma elem_of_delete (s : list Z) (x y : Z) : x ∈ delete s y ↔ x ∈ s ∧ x ≠ y.
Proof. unfold delete. rewrite list_elem_of_filter. tauto. Qed.

Lemma filter_keeps_all {A} (P : A → Prop) `{∀ x, Decision (P x)} (l : list A) :
  Forall P l → filter P l = l.
Proof.
  induction 1 as [|x l Hx _ IH]; [done |].
  by rewrite filter_cons_True, IH.
Qed.

Lemma NoDup_delete (s : list Z) (y : Z) : NoDup s → NoDup (delete s y).
Proof. apply NoDup_filter. Qed.

(** [forEach(x => set.add(f x))] *)
Lemma foldl_add_spec {A} (f : A → Z) (l : list A) : ∀ s,
  (NoDup s → NoDup (foldl (λ s a, add s (f a)) s l))
  ∧ (∀ x, x ∈ foldl (λ s a, add s (f a)) s l ↔ x ∈ s ∨ x ∈ f <$> l)
  ∧ ∃ new, foldl (λ s a, add s (f a)) s l = s ++ new.
Proof.
  induction l as [|a l IH]; intros s; simpl.
  - split; [done |]. split; [set_solver | exists []; by rewrite app_nil_r].
  - destruct (IH (add s (f a))) as (Hnd & Hin & new & Hnew).
    split; [intros; by apply Hnd, NoDup_add |]. split.
    + intros x. rewrite Hin, elem_of_add. set_solver.
    + rewrite Hnew. unfold add, has. case_bool_decide; [by exists new |].
      exists ([f a] ++ new). by rewrite app_assoc.
Qed.

Lemma updateSelectionToolbar_app w : app (updateSelectionToolbar w) = app w.
Proof. unfold updateSelectionToolbar. by case_bool_decide. Qed.

Lemma updateSelectionToolbar_browser w :
  browser (updateSelectionToolbar w) = browser w.
Proof. unfold updateSelectionToolbar. by case_bool_decide. Qed.

Lemma updatePagination_browser w : browser (updatePagination w) = browser w.
Proof.
  unfold updatePagination. destruct (pagination (document w)); [| done].
  by case_bool_decide.
Qed.

Lemma startAutoRefresh_app w : app (startAutoRefresh w) = app w.
Proof. unfold startAutoRefresh. by destruct (refreshInterval (taskManager w)). Qed.

Lemma stopAutoRefresh_app w : app (stopAutoRefresh w) = app w.
Proof. unfold stopAutoRefresh. by destruct (refreshInterval (taskManager w)). Qed.

Lemma startAutoRefresh_net w :
  net (browser (startAutoRefresh w)) = net (browser w).
Proof. unfold startAutoRefresh. by destruct (refreshInterval (taskManager w)). Qed.

Lemma stopAutoRefresh_net w : net (browser (stopAutoRefresh w)) = net (browser w).
Proof. apply stopAutoRefresh_frame. Qed.

Ltac to_start_world :=
  repeat (progress
            (rewrite ?updateSelectionToolbar_app, ?updateSelectionToolbar_browser,
               ?displayArticles_app, ?displayArticles_browser,
               ?updatePagination_app, ?updatePagination_browser,
               ?startAutoRefresh_app, ?stopAutoRefresh_app,
               ?startAutoRefresh_net, ?stopAutoRefresh_net,
               ?addLog_app, ?addLog_browser;
             simpl)).

Lemma selection_toggleSelection id w :
  selection (toggleSelection id w)
  = if has (selection w) id then delete (selection w) id else add (selection w) id.
Proof. unfold selection, toggleSelection. by to_start_world. Qed.

Lemma selection_selectAll w :
  selection (selectAll w)
  = foldl (λ s article, add s (article_id article)) (selection w)
          (currentArticles (app w)).
Proof. unfold selection, selectAll. by to_start_world. Qed.

Lemma selection_clearSelection w : selection (clearSelection w) = [].
Proof. unfold selection, clearSelection. by to_start_world. Qed.

(** What one call adds to the requests sent, and what it does to the
    selection. *)
Lemma perform_requests a w :
  NoDup (selection w) →
  NoDup (selection (perform a w))
  ∧ ∃ new, net (browser (perform a w)) = net (browser w) ++ new
           ∧ Forall well_formed new.
Proof.
  intros Hnd. destruct a; cbn [perform].
  - split; [done |]. eexists. split; [reflexivity |]. by repeat constructor.
  - split.
    + rewrite selection_toggleSelection. destruct (has _ _);
        [by apply NoDup_delete | by apply NoDup_add].
    + exists []. rewrite app_nil_r. split; [| constructor].
      unfold toggleSelection. by to_start_world.
  - split.
    + rewrite selection_selectAll. by apply foldl_add_spec.
    + exists []. rewrite app_nil_r. split; [| constructor].
      unfold selectAll. by to_start_world.
  - split.
    + rewrite selection_clearSelection. constructor.
    + exists []. rewrite app_nil_r. split; [| constructor].
      unfold clearSelection. by to_start_world.
  - unfold downloadSelected. case_bool_decide as Hlen.
    + split; [by rewrite selection_addLog |].
      exists []. rewrite app_nil_r, addLog_browser. split; [done | constructor].
    + split; [done |]. eexists. split; [reflexivity |].
      repeat constructor; [| done].
      intros Hnil. apply Hlen. unfold selection in Hnil. by rewrite Hnil.
  - split; [done |]. eexists. split; [reflexivity |].
    repeat constructor; [done | set_solver].
  - split; [done |]. eexists. split; [reflexivity |]. by repeat constructor.
  - split; [done |]. eexists. split; [reflexivity |]. by repeat constructor.
  - unfold on_tab_shown. split.
    + unfold selection. by to_start_world.
    + exists [GetTasks]. split; [by to_start_world | by repeat constructor].
  - unfold on_tab_hidden. split.
    + unfold selection. by to_start_world.
    + exists []. rewrite app_nil_r. split; [by to_start_world | constructor].
Qed.

Lemma resume_requests k o w :
  (selection (resume k o w) = selection w ∨ selection (resume k o w) = [])
  ∧ ∃ new, net (browser (resume k o w)) = net (browser w) ++ new
           ∧ Forall well_formed new.
Proof.
  destruct k; destruct o as [x|e|m];
    try (split; [left; apply selection_addLog |];
         exists []; rewrite app_nil_r; split; [| constructor];
         cbn [resume loadArticles_k downloadSelected_k downloadSingle_k
              DownloadManager.loadTasks_k loadTasks_k controlTask_k];
         by rewrite addLog_browser).
  - split; [left; apply (selection_loadArticles_k (Success x)) |].
    exists [GetLiteratureStats]. split; [| by repeat constructor].
    cbv beta iota zeta delta [resume loadArticles_k]. by to_start_world.
  - split; [right; apply (selection_downloadSelected_k articleIds (Success x)) |].
    exists [GetDownloadTasks]. split; [| by repeat constructor].
    cbv beta iota zeta delta [resume downloadSelected_k]. unfold clearSelection.
    by to_start_world.
  - split; [left; apply (selection_addLog "info" "已启动单篇文章下载") |].
    exists [GetDownloadTasks]. split; [| by repeat constructor].
    cbn [resume downloadSingle_k]. by to_start_world.
  - split; [left; by destruct x |]. exists []. rewrite app_nil_r.
    split; [by destruct x | constructor].
  - split; [by left |]. exists []. rewrite app_nil_r. split; [done | constructor].
  - split; [by left |]. exists []. rewrite app_nil_r. split; [done | constructor].
  - split; [by left |]. exists []. rewrite app_nil_r. split; [done | constructor].
  - split; [by left |]. exists []. rewrite app_nil_r. split; [done | constructor].
  - split; [left; apply (selection_addLog "success" (done_message v)) |].
    exists [GetTasks]. split; [| by repeat constructor].
    cbn [resume controlTask_k]. by to_start_world.
Qed.

Lemma step_downloads_well_formed w e :
  downloads_well_formed w → downloads_well_formed (step w e).
Proof.
  intros [Hnd Hnet]. destruct e as [a|id|k o]; cbn [step].
  - destruct (perform_requests a w Hnd) as (Hnd' & new & Hnew & Hwf).
    split; [done |]. rewrite Hnew. by apply Forall_app.
  - case_bool_decide; [| done]. unfold refresh_callback.
    destruct (autoRefreshEnabled (taskManager w)); [| done].
    split; [done |]. simpl. apply Forall_app. split; [done | by repeat constructor].
  - case_bool_decide; [| done].
    destruct (resume_requests k o (unpark k w)) as (Hsel & new & Hnew & Hwf).
    split.
    + destruct Hsel as [-> | ->]; [done | constructor].
    + rewrite Hnew. by apply Forall_app.
Qed.

(** X3: the selection never holds an id twice, and no download request is
    ever sent with an empty list of articles or with an article listed
    twice, whatever the sequence of user actions, ticks and replies. *)
Theorem download_requests_well_formed (es : list event) (w : World) :
  downloads_well_formed w → downloads_well_formed (run es w).
Proof. apply run_invariant. intros; by apply step_downloads_well_formed. Qed.

Lemma download_requests_well_formed_witness :
  let es := [Do (ToggleSelection 3); Do (ToggleSelection 7); Do (ToggleSelection 3);
             Do DownloadSelected; Do (DownloadSingle 9)] in
  downloads_well_formed (initial (Some 2%Z))
  ∧ downloads_well_formed (run es (initial (Some 2%Z))).
Proof.
  intros es.
  assert (downloads_well_formed (initial (Some 2%Z))) as H
    by (split; constructor).
  exact (conj H (download_requests_well_formed es (initial (Some 2%Z)) H)).
Defined.

Lemma elem_of_toggleSelection id w x :
  x ∈ selection (toggleSelection id w)
  ↔ if bool_decide (x = id) then x ∉ selection w else x ∈ selection w.
Proof.
  rewrite selection_toggleSelection. unfold has.
  case_bool_decide as Hin; case_bool_decide as Hx; subst;
    rewrite ?elem_of_delete, ?elem_of_add; naive_solver.
Qed.

(** X4: [toggleSelection id] flips the membership of [id] and of no other
    article; toggling twice gives back the same set of selected articles,
    and the very same selection when [id] was not selected before. *)
Theorem toggle_flips_membership (id : Z) (w : World) :
  (∀ x, x ∈ selection (toggleSelection id w)
        ↔ if bool_decide (x = id) then x ∉ selection w else x ∈ selection w)
  ∧ (∀ x, x ∈ selection (toggleSelection id (toggleSelection id w))
          ↔ x ∈ selection w)
  ∧ (id ∉ selection w →
     selection (toggleSelection id (toggleSelection id w)) = selection w).
Proof.
  pose proof (elem_of_toggleSelection id) as Hflip.
  split; [apply Hflip |]. split.
  - intros x. rewrite Hflip. case_bool_decide as Hx.
    + rewrite Hflip, bool_decide_eq_true_2 by done.
      subst. destruct (decide (id ∈ selection w)); tauto.
    + rewrite Hflip. by rewrite bool_decide_eq_false_2.
  - intros Hnot. rewrite !selection_toggleSelection. unfold has.
    rewrite (bool_decide_eq_false_2 _ Hnot).
    rewrite bool_decide_eq_true_2 by (apply elem_of_add; by right).
    unfold add, has, delete. rewrite (bool_decide_eq_false_2 _ Hnot).
    rewrite filter_app, (filter_cons_False _ id []), filter_nil, app_nil_r by tauto.
    apply filter_keeps_all, Forall_forall. intros y Hy ->. done.
Qed.

Lemma toggle_flips_membership_witness :
  let w := run [Do (ToggleSelection 3)] (initial None) in
  (7%Z ∉ selection w)
  ∧ selection (toggleSelection 7 (toggleSelection 7 w)) = [3]%Z.
Proof.
  intros w.
  assert (7%Z ∉ selection w) as H by (apply (bool_decide_unpack _); by vm_compute).
  split; [exact H |].
  exact (proj2 (proj2 (toggle_flips_membership 7 w)) H).
Defined.

Lemma foldl_add_present {A} (f : A → Z) (l : list A) (s : list Z) :
  (∀ a, a ∈ l → f a ∈ s) → foldl (λ s a, add s (f a)) s l = s.
Proof.
  induction l as [|a l IH]; intros Hall; simpl; [done |].
  unfold add at 2, has. rewrite bool_decide_eq_true_2 by (apply Hall; left).
  apply IH. intros; apply Hall. by right.
Qed.

Lemma world_eta w :
  mkWorld (app w) (taskManager w) (document w) (browser w) = w.
Proof. by destruct w. Qed.

(** [displayArticles] of a non-empty page as one assignment to the
    document: it reads the app only. *)
Lemma displayArticles_cons a l w :
  displayArticles (a :: l) w
  = with_document
      (λ d,
         let size := length (selectedArticles (app w)) in
         let cards := createArticleCard w <$> a :: l in
         if bool_decide (0 < size)
         then set_selectedCount size (set_selectionToolbar true (set_articlesList cards d))
         else set_selectionToolbar false (set_articlesList cards d)) w.
Proof.
  unfold displayArticles, updateSelectionToolbar. cbn [app with_document].
  by case_bool_decide.
Qed.

Lemma displayArticles_twice l w :
  displayArticles l (displayArticles l w) = displayArticles l w.
Proof.
  destruct l as [|a l]; [done |].
  rewrite (displayArticles_cons a l (displayArticles (a :: l) w)).
  rewrite !displayArticles_app, (displayArticles_cons a l w).
  unfold createArticleCard, with_document. cbn.
  by case_bool_decide.
Qed.

(** X5: [selectAll] adds exactly the articles of the loaded page to the
    selection, after the ids already selected and without disturbing
    their order; doing it twice is the same as doing it once. *)
Theorem selectAll_adds_loaded_page (w : World) :
  (∀ x, x ∈ selection (selectAll w)
        ↔ x ∈ selection w ∨ x ∈ article_id <$> currentArticles (app w))
  ∧ (∃ new, selection (selectAll w) = selection w ++ new)
  ∧ (NoDup (selection w) → NoDup (selection (selectAll w)))
  ∧ selectAll (selectAll w) = selectAll w.
Proof.
  rewrite selection_selectAll.
  destruct (foldl_add_spec article_id (currentArticles (app w)) (selection w))
    as (Hnd & Hin & Hnew).
  split; [exact Hin |]. split; [exact Hnew |]. split; [exact Hnd |].
  set (s' := foldl (λ s article, add s (article_id article))
               (selection w) (currentArticles (app w))) in *.
  assert (selectAll w
          = displayArticles (currentArticles (app w))
              (with_app (set_selectedArticles s') w)) as Hfirst by done.
  assert (app (selectAll w) = set_selectedArticles s' (app w)) as Happ
    by (rewrite Hfirst; by rewrite displayArticles_app).
  unfold selectAll at 1. cbv zeta. unfold with_app at 1 2. cbn [app].
  rewrite Happ. cbn [selectedArticles currentArticles set_selectedArticles].
  rewrite foldl_add_present by (intros a Ha; apply Hin; right;
                                apply list_elem_of_fmap; by exists a).
  change (set_selectedArticles s' (set_selectedArticles s' (app w)))
    with (set_selectedArticles s' (app w)).
  rewrite <- Happ, world_eta, Hfirst. apply displayArticles_twice.
Qed.

(** X6: [clearSelection] empties the selection and redraws every card as
    unselected, but it hides the toolbar only when the loaded page has
    articles: with an empty page [displayArticles] returns before the
    toolbar is updated, and the toolbar stays as it was. *)
Theorem clearSelection_leaves_toolbar_on_empty_page (w : World) :
  selection (clearSelection w) = []
  ∧ Forall (λ c, card_selected c = false) (articlesList (document (clearSelection w)))
  ∧ selectionToolbar (document (clearSelection w))
    = match currentArticles (app w) with
      | [] => selectionToolbar (document w)
      | _ :: _ => false
      end.
Proof.
  split; [apply selection_clearSelection |].
  unfold clearSelection. cbv zeta. cbn [app with_app currentArticles set_selectedArticles].
  destruct (currentArticles (app w)) as [|a l]; [by split |].
  unfold displayArticles, updateSelectionToolbar. cbn. split; [| done].
  constructor; [done |]. apply Forall_fmap, Forall_forall. done.
Qed.

Lemma toggle_card_unique id flag cards :
  NoDup (card_id <$> cards) →
  toggle_card id flag cards
  = (λ c, if bool_decide (card_id c = id) then mkCard (card_id c) flag else c) <$> cards.
Proof.
  induction cards as [|c cards IH]; [done |].
  rewrite fmap_cons, NoDup_cons. intros [Hc Hnd]. cbn.
  case_bool_decide as Hid; [| by rewrite IH].
  f_equal. symmetry. rewrite <- (list_fmap_id cards) at 2.
  apply list_fmap_ext. intros i c' Hc'.
  rewrite bool_decide_eq_false_2; [done |].
  intros Heq. apply Hc. rewrite Hid, <- Heq.
  apply list_elem_of_fmap. exists c'. split; [done |].
  by eapply list_elem_of_lookup_2.
Qed.

Lemma cards_reflect_displayArticles l w :
  cards_reflect_selection (displayArticles l w).
Proof.
  unfold cards_reflect_selection, selection. rewrite displayArticles_app.
  destruct l as [|a l]; [constructor |].
  unfold displayArticles, updateSelectionToolbar.
  case_bool_decide; cbn; (constructor; [done |]);
    apply Forall_fmap, Forall_forall; done.
Qed.

(** X7: the cards stay in step with the selection.  Any redraw
    ([displayArticles], hence [selectAll], [clearSelection] and a
    successful page load) marks each card by whether its article is
    selected; [toggleSelection] keeps that true provided no two cards
    carry the same article id (it updates the first matching card only). *)
Theorem cards_follow_selection (id : Z) (w : World) :
  NoDup (card_id <$> articlesList (document w)) →
  cards_reflect_selection w →
  cards_reflect_selection (toggleSelection id w)
  ∧ cards_reflect_selection (selectAll w)
  ∧ cards_reflect_selection (clearSelection w)
  ∧ ∀ result, cards_reflect_selection (loadArticles_k (Success result) w).
Proof.
  intros Hnd Hcards.
  split; [| split; [apply cards_reflect_displayArticles |
            split; [apply cards_reflect_displayArticles |]]].
  - pose proof (elem_of_toggleSelection id w) as Hflip.
    unfold cards_reflect_selection in *.
    assert (articlesList (document (toggleSelection id w))
            = toggle_card id (has (selection (toggleSelection id w)) id)
                (articlesList (document w))) as ->.
    { unfold toggleSelection at 1. cbv zeta. cbn [document with_document articlesList set_articlesList].
      unfold updateSelectionToolbar. case_bool_decide; cbn; f_equal;
        unfold selection, toggleSelection, updateSelectionToolbar;
        by case_bool_decide. }
    rewrite toggle_card_unique by done.
    apply Forall_fmap. eapply Forall_impl; [exact Hcards |].
    intros c Hc. cbn. case_bool_decide as Hid; cbn; [by rewrite Hid |].
    rewrite Hc. unfold has. apply bool_decide_ext.
    rewrite Hflip. by rewrite bool_decide_eq_false_2.
  - intros result. unfold cards_reflect_selection.
    rewrite selection_loadArticles_k.
    cbv beta iota zeta delta [loadArticles_k].
    set (w1 := with_app _ w).
    assert (selection w = selection (displayArticles (currentArticles (app w1)) w1))
      as -> by (by rewrite selection_displayArticles).
    set (w2 := displayArticles _ w1).
    assert (articlesList (document (loadLiteratureStats
              (updateKeywordFilter
                 (from_array (filter (λ k, k ≠ "") (article_keyword <$> r_articles result)))
                 (updatePagination w2))))
            = articlesList (document w2)) as ->.
    { cbn. unfold updatePagination. destruct (pagination (document w2)); [| done].
      by case_bool_decide. }
    apply cards_reflect_displayArticles.
Qed.

Lemma cards_follow_selection_witness :
  let w := run [Do (LoadArticles 1 "" "" ""); Settle KLoadArticles (Success (sample_page 1))]
             (initial None) in
  NoDup (card_id <$> articlesList (document w))
  ∧ cards_reflect_selection w
  ∧ cards_reflect_selection (toggleSelection 7 w).
Proof.
  intros w.
  assert (NoDup (card_id <$> articlesList (document w))) as Hnd
    by (apply (bool_decide_unpack _); by vm_compute).
  assert (cards_reflect_selection w) as Hcards
    by (repeat constructor).
  split; [exact Hnd |]. split; [exact Hcards |].
  exact (proj1 (cards_follow_selection 7 w Hnd Hcards)).
Defined.

End SelectionSet.

(* ===================================================================== *)
(** ** Further properties: page links and the keyword filter *)
(* ===================================================================== *)

Section Navigation.
Import ArticleManager ArticleLinks Loop Props Invariants.
Local Open Scope Z_scope.

Lemma elem_of_pageItems it p tp :
  it ∈ pageItems p tp
  ↔ (it = PrevLink (p - 1) ∧ 1 < p)
    ∨ (∃ i, it = PageLink i (bool_decide (i = p))
            ∧ Z.max 1 (p - 2) ≤ i ≤ Z.min tp (p + 2))
    ∨ (it = NextLink (p + 1) ∧ p < tp).
Proof.
  unfold pageItems. rewrite !elem_of_app, list_elem_of_fmap.
  assert (it ∈ (if bool_decide (1 < p) then [PrevLink (p - 1)] else [])
          ↔ it = PrevLink (p - 1) ∧ 1 < p) as ->.
  { case_bool_decide; rewrite ?list_elem_of_singleton, ?elem_of_nil; tauto. }
  assert (it ∈ (if bool_decide (p < tp) then [NextLink (p + 1)] else [])
          ↔ it = NextLink (p + 1) ∧ p < tp) as ->.
  { case_bool_decide; rewrite ?list_elem_of_singleton, ?elem_of_nil; tauto. }
  setoid_rewrite elem_of_seqZ.
  split; (intros [?|[(i & ? & ?)|?]]; [by left | right; left | by right; right]);
    exists i; (split; [done | lia]).
Qed.

Lemma NoDup_pageItems p tp : NoDup (pageItems p tp).
Proof.
  assert (NoDup ((λ i, PageLink i (bool_decide (i = p)))
                   <$> seqZ (Z.max 1 (p - 2))
                         (Z.min tp (p + 2) - Z.max 1 (p - 2) + 1))) as Hlinks.
  { apply NoDup_fmap_2_strong; [| apply NoDup_seqZ]. by intros i j _ _ [=]. }
  unfold pageItems.
  apply NoDup_app. split; [| split].
  - case_bool_decide; [apply NoDup_singleton | constructor].
  - intros it Hprev Hrest.
    assert (∃ t, it = PrevLink t) as [t ->].
    { revert Hprev. destruct (bool_decide (1 < p));
        [intros ->%list_elem_of_singleton; eauto | by intros ?%elem_of_nil]. }
    apply elem_of_app in Hrest as [(i & [=] & _)%list_elem_of_fmap | Hnext].
    revert Hnext. destruct (bool_decide (p < tp));
      [by intros [=]%list_elem_of_singleton | by intros ?%elem_of_nil].
  - apply NoDup_app. split; [exact Hlinks |]. split.
    + intros it (i & -> & _)%list_elem_of_fmap.
      destruct (bool_decide (p < tp));
        [by intros [=]%list_elem_of_singleton | by intros ?%elem_of_nil].
    + case_bool_decide; [apply NoDup_singleton | constructor].
Qed.

(** X8: with the current page within [1, totalPages] and more than one
    page, the pagination holds no item twice, exactly one page link is
    marked active and it is the current page; a "previous" link is there
    exactly when the current page is not the first and a "next" link
    exactly when it is not the last; every item leads to a page within
    [1, totalPages], and following it requests that page with the app's
    page size and with all three filters empty. *)
Theorem page_links_stay_in_range (w : World) :
  let p := currentPage (app w) in
  let tp := totalPages (app w) in
  1 ≤ p ≤ tp → 1 < tp → is_Some (pagination (document w)) →
  ∃ items,
    pagination (document (updatePagination w)) = Some items
    ∧ NoDup items
    ∧ PageLink p true ∈ items
    ∧ (∀ it, it ∈ items → is_active it → it = PageLink p true)
    ∧ (PrevLink (p - 1) ∈ items ↔ 1 < p)
    ∧ (NextLink (p + 1) ∈ items ↔ p < tp)
    ∧ (∀ it, it ∈ items →
         1 ≤ link_target it ≤ tp
         ∧ ∀ w', net (browser (click it w'))
                 = net (browser w')
                   ++ [GetArticles (link_target it) (articlesPerPage (app w')) "" "" ""]).
Proof.
  intros p tp Hp Htp [old Hold]. exists (pageItems p tp).
  split.
  { unfold updatePagination. rewrite Hold.
    by rewrite bool_decide_eq_false_2 by (fold tp; lia). }
  split; [apply NoDup_pageItems |]. split; [| split; [| split; [| split]]].
  - apply elem_of_pageItems. right; left. exists p.
    split; [by rewrite bool_decide_eq_true_2 | lia].
  - intros it [(-> & _) | [(i & -> & Hi) | (-> & _)]]%elem_of_pageItems; try done.
    cbn. case_bool_decide; [by subst | done].
  - rewrite elem_of_pageItems. split; [| by left].
    intros [(_ & ?) | [(i & [=] & _) | ([=] & _)]]; done.
  - rewrite elem_of_pageItems. split; [| by right; right].
    intros [([=] & _) | [(i & [=] & _) | (_ & ?)]]; done.
  - intros it [(-> & ?) | [(i & -> & Hi) | (-> & ?)]]%elem_of_pageItems;
      (split; [cbn; lia | done]).
Qed.

Lemma page_links_stay_in_range_witness :
  let w := loadArticles_k (Success (sample_page 5)) (initial None) in
  (1 ≤ currentPage (app w) ≤ totalPages (app w))
  ∧ 1 < totalPages (app w)
  ∧ is_Some (pagination (document w))
  ∧ ∃ items, pagination (document (updatePagination w)) = Some items
             ∧ PageLink 5 true ∈ items.
Proof.
  intros w.
  assert (1 ≤ currentPage (app w) ≤ totalPages (app w)) as Hp by (by vm_compute).
  assert (1 < totalPages (app w)) as Htp by (by vm_compute).
  assert (is_Some (pagination (document w))) as Hsome by (by eexists).
  split; [exact Hp |]. split; [exact Htp |]. split; [exact Hsome |].
  destruct (page_links_stay_in_range w Hp Htp Hsome) as (items & Hitems & _ & Hin & _).
  exists items. exact (conj Hitems Hin).
Defined.

(** [new Set(array)] keeps one copy of every element. *)
Lemma foldl_add_members {A} `{EqDecision A} (l : list A) : ∀ s : list A,
  (NoDup s → NoDup (foldl add s l))
  ∧ ∀ x, x ∈ foldl add s l ↔ x ∈ s ∨ x ∈ l.
Proof.
  induction l as [|a l IH]; intros s; simpl.
  - split; [done | set_solver].
  - destruct (IH (add s a)) as (Hnd & Hin).
    assert (∀ x, x ∈ add s a ↔ x ∈ s ∨ x = a) as Hadd
      by (intros x; unfold add, has; case_bool_decide; set_solver).
    split.
    + intros Hs. apply Hnd. unfold add, has. case_bool_decide; [done |].
      apply NoDup_app. split; [done |]. split; [set_solver | apply NoDup_singleton].
    + intros x. rewrite Hin, Hadd. set_solver.
Qed.

Lemma from_array_members {A} `{EqDecision A} (l : list A) :
  NoDup (from_array l) ∧ ∀ x, x ∈ from_array l ↔ x ∈ l.
Proof.
  destruct (foldl_add_members l []) as (Hnd & Hin).
  split; [apply Hnd; constructor |]. intros x. rewrite Hin. set_solver.
Qed.

Lemma displayArticles_keywordValue l w :
  keywordValue (document (displayArticles l w)) = keywordValue (document w).
Proof.
  destruct l as [|a l]; [done |].
  rewrite displayArticles_cons. cbn. by case_bool_decide.
Qed.

Lemma loadArticles_k_keywords result w :
  let w' := loadArticles_k (Success result) w in
  let options :=
    from_array (filter (λ k, k ≠ "") (article_keyword <$> r_articles result)) in
  keywordOptions (document w') = options
  ∧ keywordValue (document w')
    = (if has options (keywordValue (document w)) then keywordValue (document w) else "").
Proof.
  intros w' options. unfold w'.
  cbv beta iota zeta delta [loadArticles_k].
  set (w2 := displayArticles _ _).
  assert (keywordValue (document (updatePagination w2)) = keywordValue (document w))
    as Hvalue.
  { transitivity (keywordValue (document w2)).
    - unfold updatePagination. destruct (pagination (document w2)); [| done].
      by case_bool_decide.
    - unfold w2. by rewrite displayArticles_keywordValue. }
  cbn. by rewrite Hvalue.
Qed.

(** X9: after a successful page load the keyword filter offers each
    non-empty keyword of the loaded articles exactly once and nothing
    else; the chosen keyword is kept when it is still offered and reset
    to "all keywords" otherwise, and the next search sends page 1 with
    that value as its keyword. *)
Theorem keyword_filter_follows_loaded_page (result : ArticlesPage) (w : World) :
  let w' := loadArticles_k (Success result) w in
  NoDup (keywordOptions (document w'))
  ∧ (∀ k, k ∈ keywordOptions (document w')
          ↔ k ≠ "" ∧ ∃ a, a ∈ r_articles result ∧ article_keyword a = k)
  ∧ keywordValue (document w')
    = (if bool_decide (keywordValue (document w) ∈ keywordOptions (document w'))
       then keywordValue (document w) else "")
  ∧ ∀ text type,
      net (browser (searchArticles text type w'))
      = net (browser w')
        ++ [GetArticles 1 (articlesPerPage (app w)) text
              (keywordValue (document w')) type].
Proof.
  intros w'.
  destruct (loadArticles_k_keywords result w) as (Hoptions & Hvalue).
  fold w' in Hoptions, Hvalue. rewrite Hoptions.
  destruct (from_array_members
              (filter (λ k, k ≠ "") (article_keyword <$> r_articles result)))
    as (Hnd & Hin).
  split; [exact Hnd |]. split; [| split; [exact Hvalue |]].
  - intros k. rewrite Hin, list_elem_of_filter, list_elem_of_fmap.
    split; [intros (? & a & -> & ?); eauto | intros (? & a & ? & <-); eauto].
  - intros text type. unfold searchArticles, loadArticles. cbn [fetch with_browser browser net].
    unfold w'. by rewrite loadArticles_k_app.
Qed.

End Navigation.

(* ===================================================================== *)
(** ** Further properties: the task view *)
(* ===================================================================== *)

Section TaskView.
Import ArticleManager TaskManager Loop Props Invariants.

Lemma task_view_addLog level text w : task_view (addLog level text w) = task_view w.
Proof.
  unfold task_view.
  rewrite addLog_taskManager, addLog_browser.
  by destruct (addLog_tasks_view level text w) as (-> & ->).
Qed.

Lemma task_view_updateSelectionToolbar w :
  task_view (updateSelectionToolbar w) = task_view w.
Proof. unfold updateSelectionToolbar. by case_bool_decide. Qed.

Lemma task_view_displayArticles l w : task_view (displayArticles l w) = task_view w.
Proof.
  destruct l as [|a l]; [done |].
  rewrite displayArticles_cons. unfold task_view. cbn. by case_bool_decide.
Qed.

Lemma task_view_updatePagination w : task_view (updatePagination w) = task_view w.
Proof.
  unfold updatePagination. destruct (pagination (document w)); [| done].
  by case_bool_decide.
Qed.

Lemma task_view_same w w' :
  taskManager w' = taskManager w →
  tasksList (document w') = tasksList (document w) →
  counters (document w') = counters (document w) →
  timers (browser w') = timers (browser w) →
  task_view w' = task_view w.
Proof. unfold task_view. by intros -> -> -> ->. Qed.

Lemma perform_task_view a w :
  a ≠ TasksTabShown → a ≠ TasksTabHidden → task_view (perform a w) = task_view w.
Proof.
  intros Hshown Hhidden. destruct a; try done; cbn [perform].
  - unfold toggleSelection. cbv zeta.
    set (w1 := with_app _ w).
    transitivity (task_view (updateSelectionToolbar w1)); [reflexivity |].
    rewrite task_view_updateSelectionToolbar. reflexivity.
  - unfold selectAll. cbv zeta. rewrite task_view_displayArticles. reflexivity.
  - unfold clearSelection. cbv zeta. rewrite task_view_displayArticles. reflexivity.
  - unfold downloadSelected. case_bool_decide; [apply task_view_addLog | done].
Qed.

Lemma resume_task_view k o w :
  task_view (resume k o w) = task_view w
  ∨ ∃ ts, k = KLoadTasks
          ∧ task_view (resume k o w)
            = (ts, ts, counters_of ts, refreshInterval (taskManager w),
               timers (browser w)).
Proof.
  destruct k; destruct o as [x|e|m];
    try (left; apply task_view_addLog).
  - left. cbv beta iota zeta delta [resume loadArticles_k].
    set (w2 := displayArticles _ _).
    transitivity (task_view (updatePagination w2)); [reflexivity |].
    unfold w2. rewrite task_view_updatePagination, task_view_displayArticles.
    reflexivity.
  - left. cbv beta iota zeta delta [resume downloadSelected_k].
    set (w2 := clearSelection _).
    transitivity (task_view w2); [reflexivity |].
    unfold w2, clearSelection. cbv zeta.
    rewrite task_view_displayArticles, <- (task_view_addLog "info"
      ("已启动下载任务，共 " +:+ pretty (length articleIds) +:+ " 篇文章") w).
    reflexivity.
  - left. destruct x; reflexivity.
  - left. reflexivity.
  - left. reflexivity.
  - left. reflexivity.
  - right. exists x. split; [done |]. unfold task_view.
    cbn [resume]. rewrite loadTasks_k_tasks, loadTasks_k_tasksList, loadTasks_k_counters.
    by destruct (loadTasks_k_timer (Success x) w) as (-> & ->).
Qed.

Lemma step_task_view w e :
  task_view (step w e) = task_view w
  ∨ e = Do TasksTabShown ∨ e = Do TasksTabHidden
  ∨ ∃ ts, task_view (step w e)
          = (ts, ts, counters_of ts, refreshInterval (taskManager w),
             timers (browser w)).
Proof.
  destruct e as [a|id|k o]; cbn [step].
  - destruct a; try (by right; left); try (by right; right; left);
      left; by apply perform_task_view.
  - left. case_bool_decide; [| done]. unfold refresh_callback.
    by destruct (autoRefreshEnabled (taskManager w)).
  - case_bool_decide; [| by left].
    destruct (resume_task_view k o (unpark k w)) as [H'|(ts & _ & H')].
    + left. by rewrite H'.
    + right; right; right. exists ts. by rewrite H'.
Qed.

Lemma step_single_timer w e : single_timer w → single_timer (step w e).
Proof.
  intros Hw. unfold single_timer in *.
  destruct (step_task_view w e) as [H'|[->|[->|(ts & H')]]].
  - injection H' as _ _ _ -> ->. done.
  - cbn [step perform]. unfold on_tab_shown, startAutoRefresh.
    change (refreshInterval (taskManager (loadTasks w)))
      with (refreshInterval (taskManager w)).
    destruct (refreshInterval (taskManager w)) as [old|]; cbn; rewrite Hw; cbn.
    + by destruct (decide (old ≠ old)).
    + done.
  - cbn [step perform]. unfold on_tab_hidden, stopAutoRefresh.
    destruct (refreshInterval (taskManager w)) as [old|] eqn:Hri; cbn;
      [| by rewrite Hri].
    rewrite Hw. cbn. by destruct (decide (old ≠ old)).
  - injection H' as _ _ _ -> ->. done.
Qed.

Lemma step_tasks_in_sync w e : tasks_in_sync w → tasks_in_sync (step w e).
Proof.
  intros [Hlist Hcount]. unfold tasks_in_sync.
  destruct (step_task_view w e) as [H'|[->|[->|(ts & H')]]].
  - injection H' as -> -> -> _ _. done.
  - cbn [step perform]. unfold on_tab_shown.
    destruct (startAutoRefresh_frame (loadTasks w)) as (-> & -> & _). done.
  - cbn [step perform]. unfold on_tab_hidden.
    destruct (stopAutoRefresh_frame w) as (-> & -> & _). done.
  - injection H' as -> -> -> _ _. done.
Qed.

Lemma run_snoc es e w : run (es ++ [e]) w = step (run es w) e.
Proof. unfold run. by rewrite foldl_app. Qed.

(** X10: the refresh timer never leaks.  If the only live interval is
    the one [refreshInterval] names, that stays so after any sequence of
    events, so at most one interval is ever live however often the tasks
    tab is shown; and once the tab is hidden no interval is live and a
    tick changes nothing. *)
Theorem refresh_timer_never_leaks (es : list event) (w : World) :
  single_timer w →
  single_timer (run es w)
  ∧ length (timers (browser (run es w))) ≤ 1
  ∧ let hidden := run (es ++ [Do TasksTabHidden]) w in
    timers (browser hidden) = []
    ∧ refreshInterval (taskManager hidden) = None
    ∧ ∀ id, step hidden (Tick id) = hidden.
Proof.
  intros Hw.
  assert (single_timer (run es w)) as Hrun
    by (revert Hw; apply run_invariant; intros; by apply step_single_timer).
  split; [exact Hrun |]. split.
  - rewrite Hrun. destruct (refreshInterval _); simpl; lia.
  - rewrite run_snoc. cbn [step perform]. unfold on_tab_hidden.
    set (w' := run es w) in *.
    destruct (stopAutoRefresh_timer w') as (Hnone & Htimers).
    assert (timers (browser (stopAutoRefresh w')) = []) as Hempty.
    { rewrite Htimers, Hrun. destruct (refreshInterval (taskManager w')) as [old|];
        [| done]. cbn. by destruct (decide (old ≠ old)). }
    split; [exact Hempty |]. split; [exact Hnone |].
    intros id. cbn [step]. rewrite Hempty.
    by rewrite bool_decide_eq_false_2 by (apply not_elem_of_nil).
Qed.

Lemma refresh_timer_never_leaks_witness :
  let es := [Do TasksTabShown; Do TasksTabShown; Tick 2; Do TasksTabShown] in
  single_timer (initial None)
  ∧ timers (browser (run es (initial None))) = [3%positive]
  ∧ length (timers (browser (run es (initial None)))) ≤ 1.
Proof.
  intros es.
  assert (single_timer (initial None)) as H by reflexivity.
  split; [exact H |]. split; [reflexivity |].
  exact (proj1 (proj2 (refresh_timer_never_leaks es (initial None) H))).
Defined.

(** X11: what is rendered of the tasks never goes stale: if the rendered
    list and the four counters agree with [this.tasks], they still do
    after any sequence of user actions, ticks and replies. *)
Theorem task_view_never_stale (es : list event) (w : World) :
  tasks_in_sync w → tasks_in_sync (run es w).
Proof. apply run_invariant. intros; by apply step_tasks_in_sync. Qed.

Lemma task_view_never_stale_witness :
  let es := [Do TasksTabShown;
             Settle KLoadTasks (Success [mkTask 8 "download" "running" true]);
             Do (ControlTask Pause 8); Settle (KTaskControl Pause) (Success ());
             Settle KLoadTasks (Rejected "Failed to fetch")] in
  tasks_in_sync (initial None) ∧ tasks_in_sync (run es (initial None)).
Proof.
  intros es.
  assert (tasks_in_sync (initial None)) as H by (split; reflexivity).
  exact (conj H (task_view_never_stale es (initial None) H)).
Defined.



Lemma tracked_indicator (s : string) :
  (if bool_decide (s = "running") then 1 else 0)
  + (if bool_decide (s = "paused") then 1 else 0)
  + (if bool_decide (s = "completed") then 1 else 0)
  + (if bool_decide (s = "failed") then 1 else 0)
  = if bool_decide (s ∈ tracked) then 1 else 0.
Proof.
  unfold tracked.
  destruct (decide (s = "running")) as [->|H1]; [done |].
  destruct (decide (s = "paused")) as [->|H2]; [done |].
  destruct (decide (s = "completed")) as [->|H3]; [done |].
  destruct (decide (s = "failed")) as [->|H4]; [done |].
  rewrite !bool_decide_eq_false_2; [done | set_solver | done ..].
Qed.

(** X13: the four counters shown never add up to more than the number of
    tasks: their sum is the number of tasks whose status is running,
    paused, completed or failed, so it falls short of the total by the
    tasks in any other status (pending, for one). *)
Theorem counters_sum_to_tracked_tasks (w : World) :
  let c := counters (document (updateTaskStats w)) in
  let ts := tasks (taskManager w) in
  runningTasksCount c + pausedTasksCount c + completedTasksCount c + failedTasksCount c
  = length (filter (λ t, status t ∈ tracked) ts)
  ∧ runningTasksCount c + pausedTasksCount c + completedTasksCount c + failedTasksCount c
    ≤ length ts.
Proof.
  intros c ts.
  assert (runningTasksCount c + pausedTasksCount c + completedTasksCount c
          + failedTasksCount c
          = length (filter (λ t, status t ∈ tracked) ts)) as Hsum.
  { unfold c. rewrite updateTaskStats_counters. fold ts. unfold counters_of. cbn.
    induction ts as [|t ts IH]; [done |].
    rewrite !count_status_cons, filter_cons.
    pose proof (tracked_indicator (status t)) as Hind.
    destruct (decide (status t ∈ tracked)) as [Hin|Hin].
    - rewrite (bool_decide_eq_true_2 _ Hin) in Hind. simpl. lia.
    - rewrite (bool_decide_eq_false_2 _ Hin) in Hind. lia. }
  split; [exact Hsum |]. rewrite Hsum. apply length_filter.
Qed.

End TaskView.

(* ===================================================================== *)
(** ** Further properties: task buttons and bulk actions *)
(* ===================================================================== *)

Section BulkActions.
Import TaskManager TaskActions Loop Props Invariants.

(** X14: the bulk actions and the buttons of the cards agree except on
    one point.  A task shows a pause button exactly when [pauseAllTasks]
    would pause it and a resume button exactly when [resumeAllTasks]
    would resume it; every task with a stop button is stopped by
    [stopAllTasks], but [stopAllTasks] also stops the paused tasks that
    cannot be resumed, whose cards show no stop button.  Every card has
    a details button. *)
Theorem bulk_actions_match_buttons (w : World) (task : Task) :
  task ∈ tasks (taskManager w) →
  (task ∈ runningTasks w ↔ PauseButton (task_id task) ∈ createTaskActions task)
  ∧ (task ∈ pausedTasks w ↔ ResumeButton (task_id task) ∈ createTaskActions task)
  ∧ (StopButton (task_id task) ∈ createTaskActions task → task ∈ activeTasks w)
  ∧ (task ∈ activeTasks w ∧ StopButton (task_id task) ∉ createTaskActions task
     ↔ status task = "paused" ∧ can_resume task = false)
  ∧ DetailsButton (task_id task) ∈ createTaskActions task.
Proof.
  intros Hin. unfold runningTasks, pausedTasks, activeTasks, createTaskActions.
  rewrite !list_elem_of_filter.
  destruct (decide (status task = "running")) as [Hrun|Hrun].
  - rewrite (bool_decide_eq_true_2 _ Hrun), Hrun. set_solver.
  - rewrite (bool_decide_eq_false_2 _ Hrun).
    destruct (decide (status task = "paused")) as [Hp|Hp].
    + rewrite (bool_decide_eq_true_2 _ Hp), Hp.
      destruct (can_resume task); cbn; set_solver.
    + rewrite (bool_decide_eq_false_2 _ Hp). cbn. set_solver.
Qed.

Lemma bulk_actions_match_buttons_witness :
  let stuck := mkTask 4 "download" "paused" false in
  let w := run [Do TasksTabShown; Settle KLoadTasks (Success [stuck])] (initial None) in
  stuck ∈ tasks (taskManager w)
  ∧ stuck ∈ activeTasks w
  ∧ StopButton 4 ∉ createTaskActions stuck.
Proof.
  intros stuck w.
  assert (stuck ∈ tasks (taskManager w)) as H by (left).
  split; [exact H |].
  apply (proj1 (proj2 (proj2 (proj2 (bulk_actions_match_buttons w stuck H))))).
  split; reflexivity.
Defined.





End BulkActions.

(* ===================================================================== *)
(** ** Further properties: file listings *)
(* ===================================================================== *)

Section Listings.
Import ResourceManager ResourceLoader Props.

Lemma filter_insert_sorted t x (l : list File) :
  filter (λ f, modified f = t) (insert_sorted by_modified x l)
  = filter (λ f, modified f = t) (x :: l).
Proof.
  induction l as [|y l IH]; [done |]. cbn [insert_sorted].
  unfold by_modified at 1. case_bool_decide as Hxy; [done |].
  rewrite filter_cons, IH, !filter_cons.
  destruct (decide (modified y = t)), (decide (modified x = t)); try done; lia.
Qed.

Lemma filter_sort t (l : list File) :
  filter (λ f, modified f = t) (sort by_modified l)
  = filter (λ f, modified f = t) l.
Proof.
  induction l as [|x l IH]; [done |]. cbn [sort foldr].
  fold (sort by_modified l).
  by rewrite filter_insert_sorted, !filter_cons, IH.
Qed.

Lemma filter_render_item o t (l : list File) :
  filter (λ r, item_modified r = t) (render_item o <$> l)
  = render_item o <$> filter (λ f, modified f = t) l.
Proof.
  induction l as [|x l IH]; [done |]. cbn [fmap list_fmap].
  rewrite !filter_cons, IH. cbn.
  by destruct (decide (modified x = t)).
Qed.

(** X16: a listing shows one row per file, and files with the same
    modification time appear in the order the server sent them (the sort
    is stable); only the downloads listing ever shows a relative path,
    and only for files that have one. *)
Theorem listing_is_stable (files : list File) (o : Options) (t : Z) :
  files ≠ [] →
  ∃ rows,
    renderFileList files o = ListGroup rows
    ∧ length rows = length files
    ∧ filter (λ r, item_modified r = t) rows
      = render_item o <$> filter (λ f, modified f = t) files
    ∧ (∀ r, r ∈ rows → is_Some (item_extra r) → showRelative o = true)
    ∧ (o ∈ [links_options; exports_options; logs_options] →
       Forall (λ r, item_extra r = None) rows).
Proof.
  intros Hne. destruct files as [|f files]; [done |].
  eexists. split; [reflexivity |].
  assert (∀ r, r ∈ render_item o <$> sort by_modified (f :: files) →
               is_Some (item_extra r) → showRelative o = true) as Hextra.
  { intros r (x & -> & _)%list_elem_of_fmap. cbn.
    destruct (showRelative o); [done |]. by intros [? [=]]. }
  split; [| split; [| split; [exact Hextra |]]].
  - by rewrite length_fmap, sort_perm.
  - by rewrite filter_render_item, filter_sort.
  - intros Ho. apply Forall_forall. intros r Hr.
    destruct (item_extra r) eqn:Hr'; [| done].
    assert (showRelative o = true) as Hshow by (apply (Hextra r Hr); by eexists).
    set_unfold in Ho. by destruct Ho as [->|[->|[->|[]]]].
Qed.

Lemma listing_is_stable_witness :
  let a := mkFile "a.pdf" "/downloads/a.pdf" 10 500 "2024/a.pdf" in
  let b := mkFile "b.pdf" "/downloads/b.pdf" 20 900 "" in
  let c := mkFile "c.pdf" "/downloads/c.pdf" 30 500 "2024/c.pdf" in
  [a; b; c] ≠ []
  ∧ ∃ rows, renderFileList [a; b; c] downloads_options = ListGroup rows
            ∧ filter (λ r, item_modified r = 500%Z) rows
              = render_item downloads_options <$> [a; c].
Proof.
  intros a b c.
  assert ([a; b; c] ≠ []) as H by discriminate.
  split; [exact H |].
  destruct (listing_is_stable [a; b; c] downloads_options 500 H)
    as (rows & Hrender & _ & Hsame & _).
  exists rows. exact (conj Hrender Hsame).
Defined.

Lemma panel_show c c' v p :
  panel c' (show c v p)
  = if bool_decide (c' = c) then (λ _, v) <$> panel c p else panel c' p.
Proof.
  destruct p as [[?|] [?|] [?|] [?|] ?]; by destruct c, c'.
Qed.

Lemma loadFiles_spec c p :
  requested (loadFiles c p)
  = requested p ++ (if bool_decide (is_Some (panel c p)) then [c] else [])
  ∧ ∀ c', panel c' (loadFiles c p) = panel c' p.
Proof.
  unfold loadFiles. destruct (panel c p) as [v|] eqn:Hp.
  - rewrite bool_decide_eq_true_2 by (by eexists). split; [done |].
    by intros [].
  - rewrite bool_decide_eq_false_2 by (by intros [? [=]]).
    by rewrite app_nil_r.
Qed.

(** X17: [loadAll] asks for the listings whose container is in the page,
    in the order links, downloads, exports, logs, and for no other; a
    reply changes the container of its own listing only, so a listing
    that fails shows its error there (the server's text, or "加载失败"
    when it gave none) and leaves the other three as they were. *)
Theorem listings_are_independent (p : Panels) (c : category) (o : outcome (list File)) :
  requested (loadAll p)
  = requested p ++ filter (λ c, is_Some (panel c p)) [Links; Downloads; Exports; Logs]
  ∧ (∀ c', panel c' (loadAll p) = panel c' p)
  ∧ (∀ c', c' ≠ c → panel c' (loadFiles_k c o p) = panel c' p)
  ∧ requested (loadFiles_k c o p) = requested p
  ∧ panel c (loadFiles_k c o p)
    = (λ _, match o with
            | Success data => renderFileList data (options_of c)
            | Failure e => LoadError (if bool_decide (e = "") then "加载失败" else e)
            | Rejected m => LoadError m
            end) <$> panel c p.
Proof.
  split; [| split; [| split; [| split]]].
  - unfold loadAll.
    destruct (loadFiles_spec Links p) as (H1 & F1).
    destruct (loadFiles_spec Downloads (loadFiles Links p)) as (H2 & F2).
    destruct (loadFiles_spec Exports (loadFiles Downloads (loadFiles Links p)))
      as (H3 & F3).
    destruct (loadFiles_spec Logs
                (loadFiles Exports (loadFiles Downloads (loadFiles Links p))))
      as (H4 & _).
    rewrite H4, H3, H2, H1, !F3, !F2, !F1, <- !app_assoc. f_equal.
    rewrite !filter_cons, filter_nil.
    repeat case_bool_decide; repeat case_decide; done.
  - intros c'. unfold loadAll.
    rewrite (proj2 (loadFiles_spec Logs _)), (proj2 (loadFiles_spec Exports _)),
      (proj2 (loadFiles_spec Downloads _)), (proj2 (loadFiles_spec Links _)).
    done.
  - intros c' Hc'. destruct o; cbn [loadFiles_k]; rewrite panel_show;
      by rewrite bool_decide_eq_false_2.
  - destruct p as [[?|] [?|] [?|] [?|] ?]; by destruct c, o.
  - destruct o; cbn [loadFiles_k]; rewrite panel_show;
      by rewrite bool_decide_eq_true_2.
Qed.

End Listings.

(* ===================================================================== *)
(** ** Further properties: when the pagination is shown *)
(* ===================================================================== *)

Section PaginationShown.
Import ArticleManager Loop Props.
Local Open Scope Z_scope.

Lemma pageItems_not_empty p tp : 1 < tp → pageItems p tp ≠ [].
Proof.
  intros Htp. unfold pageItems.
  destruct (decide (1 < p)) as [Hp|Hp].
  - by rewrite (bool_decide_eq_true_2 _ Hp).
  - rewrite (bool_decide_eq_false_2 _ Hp).
    rewrite (bool_decide_eq_true_2 (p < tp)) by lia.
    intros Hnil. apply (f_equal length) in Hnil.
    rewrite !length_app in Hnil. simpl in Hnil. lia.
Qed.

Lemma loadArticles_k_pagination result w :
  pagination (document (loadArticles_k (Success result) w))
  = match pagination (document w) with
    | None => None
    | Some _ =>
        let tp := ceil_div (r_total result) (r_per_page result) in
        Some (if bool_decide (tp ≤ 1) then [] else pageItems (r_page result) tp)
    end.
Proof.
  cbv beta iota zeta delta [loadArticles_k].
  set (w2 := displayArticles _ _).
  transitivity (pagination (document (updatePagination w2))); [reflexivity |].
  assert (pagination (document w2) = pagination (document w)) as Hsame
    by (unfold w2; by rewrite displayArticles_pagination).
  assert (app w2 = mkApp (selectedArticles (app w)) (r_articles result)
                     (r_page result)
                     (ceil_div (r_total result) (r_per_page result))
                     (articlesPerPage (app w))) as Happ
    by (unfold w2; by rewrite displayArticles_app).
  unfold updatePagination. rewrite Hsame, Happ. cbn.
  destruct (pagination (document w)); [| done]. by case_bool_decide.
Qed.

(** X18: after a successful page load (positive page size, pagination
    element present) the pagination is left empty exactly when all the
    results fit on one page, that is when [total] is at most
    [per_page]; otherwise it holds at least one link. *)
Theorem pagination_hidden_iff_single_page (result : ArticlesPage) (w : World) :
  0 < r_per_page result →
  is_Some (pagination (document w)) →
  (pagination (document (loadArticles_k (Success result) w)) = Some []
   ↔ r_total result ≤ r_per_page result)
  ∧ (visibleWindow (loadArticles_k (Success result) w) ≠ [] →
     r_per_page result < r_total result).
Proof.
  intros Hpp [old Hold].
  pose proof (ceil_div_bounds (r_total result) (r_per_page result) Hpp) as Hceil.
  assert (ceil_div (r_total result) (r_per_page result) ≤ 1
          ↔ r_total result ≤ r_per_page result) as Hone by nia.
  split.
  - rewrite loadArticles_k_pagination, Hold. cbv zeta.
    case_bool_decide as Htp.
    + split; [intros _; by apply Hone | done].
    + split; [| intros; exfalso; apply Htp; by apply Hone].
      intros [= Hnil]. exfalso. revert Hnil. apply pageItems_not_empty. lia.
  - rewrite visibleWindow_loadArticles_k, Hold. cbv zeta.
    case_bool_decide as Htp; [done |]. intros _.
    destruct (decide (r_total result ≤ r_per_page result)) as [Hle|]; [| lia].
    exfalso. apply Htp. by apply Hone.
Qed.

Lemma pagination_hidden_iff_single_page_witness :
  let few := mkArticlesPage [] 1 10 7 in
  (0 < r_per_page few)
  ∧ is_Some (pagination (document (initial None)))
  ∧ pagination (document (loadArticles_k (Success few) (initial None))) = Some [].
Proof.
  intros few.
  assert (0 < r_per_page few) as Hpp by (simpl; lia).
  assert (is_Some (pagination (document (initial None)))) as Hsome by (by eexists).
  split; [exact Hpp |]. split; [exact Hsome |].
  apply (proj1 (pagination_hidden_iff_single_page few (initial None) Hpp Hsome)).
  simpl. lia.
Defined.

End PaginationShown.
